(** * WordAnalyzer: word-frequency analysis of blog articles

    A shallow embedding of [src/utils/WordAnalyzer.js] together with the
    pieces of the JavaScript runtime its methods rely on.

    Conventions of the model.
    - A JavaScript string is a [string]: a sequence of code units.  The
      model covers code units below 256, the range of [ascii]; on that
      range [toLowerCase], [\w], [\s] and [\d] are defined below exactly
      as ECMAScript defines them.
    - A JavaScript number holding a count, a length or an index is a
      [Z]; all such numbers stay far below 2^53, where the arithmetic of
      doubles is exact.
    - A plain object [{}] used as a table is the list of its own
      enumerable properties in enumeration order; reads fall back to
      [Object.prototype], as property lookup does.
    - Methods are pure functions; where a method mutates its argument
      ([article.analysis = ...]) the updated value is returned. *)

From Stdlib Require Import Bool List Arith ZArith Lia.
From Stdlib Require Import Ascii String DecimalString.
From Stdlib Require Import Permutation Sorted.
Import ListNotations.

Local Open Scope string_scope.
Local Open Scope list_scope.

(** ** Characters and character classes *)

Module Js.

Definition code (c : ascii) : N := N_of_ascii c.

Definition between (lo hi : N) (c : ascii) : bool :=
  ((lo <=? code c) && (code c <=? hi))%N.

Definition is_upper (c : ascii) : bool := between 65 90 c.
Definition is_lower (c : ascii) : bool := between 97 122 c.

(** [\d] *)
Definition is_digit (c : ascii) : bool := between 48 57 c.

(** [\w]: [A-Za-z0-9_] *)
Definition is_word (c : ascii) : bool :=
  is_upper c || is_lower c || is_digit c || (code c =? 95)%N.

(** [\s], which is also the set [String.prototype.trim] strips: TAB, LF,
    VT, FF, CR, SP and NBSP are its members below 256. *)
Definition is_space (c : ascii) : bool :=
  between 9 13 c || (code c =? 32)%N || (code c =? 160)%N.

(** The code-unit mapping of [String.prototype.toLowerCase]: [A-Z] and
    the upper-case letters of the Latin-1 supplement (U+00C0..U+00DE
    without the multiplication sign U+00D7) move up by 32. *)
Definition lower_char (c : ascii) : ascii :=
  if is_upper c || between 192 214 c || between 216 222 c
  then ascii_of_N (code c + 32)
  else c.

(** ** String methods *)

Fixpoint toLowerCase (s : string) : string :=
  match s with
  | EmptyString => EmptyString
  | String c s' => String (lower_char c) (toLowerCase s')
  end.

(** [s.replace(/[class]/g, r)] for a one-character replacement [r]. *)
Fixpoint replace_each (class : ascii -> bool) (r : ascii) (s : string) : string :=
  match s with
  | EmptyString => EmptyString
  | String c s' =>
      String (if class c then r else c) (replace_each class r s')
  end.

(** [s.replace(/[class]+/g, r)]: every maximal run of [class] characters
    becomes one [r].  [in_run] tells that the previous character was part
    of a run that has been replaced already. *)
Fixpoint replace_runs_from (class : ascii -> bool) (r : ascii)
    (in_run : bool) (s : string) : string :=
  match s with
  | EmptyString => EmptyString
  | String c s' =>
      if class c then
        if in_run then replace_runs_from class r true s'
        else String r (replace_runs_from class r true s')
      else String c (replace_runs_from class r false s')
  end.

Definition replace_runs (class : ascii -> bool) (r : ascii) (s : string) : string :=
  replace_runs_from class r false s.

Fixpoint trimStart (s : string) : string :=
  match s with
  | EmptyString => EmptyString
  | String c s' => if is_space c then trimStart s' else s
  end.

Fixpoint trimEnd (s : string) : string :=
  match s with
  | EmptyString => EmptyString
  | String c s' =>
      match trimEnd s' with
      | EmptyString => if is_space c then EmptyString else String c EmptyString
      | r => String c r
      end
  end.

Definition trim (s : string) : string := trimEnd (trimStart s).

(** [s.split(/[class]+/)]: the pieces between maximal runs of [class]
    characters, with an empty piece before a leading run and after a
    trailing one; the empty string splits into one empty piece. *)
Fixpoint split_runs_from (class : ascii -> bool) (in_run : bool) (s : string)
    : list string :=
  match s with
  | EmptyString => [EmptyString]
  | String c s' =>
      if class c then
        if in_run then split_runs_from class true s'
        else EmptyString :: split_runs_from class true s'
      else
        match split_runs_from class false s' with
        | [] => [String c EmptyString]
        | t :: ts => String c t :: ts
        end
  end.

Definition split_runs (class : ascii -> bool) (s : string) : list string :=
  split_runs_from class false s.

(** [/^[class]+$/.test(s)] *)
Fixpoint all_chars (class : ascii -> bool) (s : string) : bool :=
  match s with
  | EmptyString => true
  | String c s' => class c && all_chars class s'
  end.

Definition test_all (class : ascii -> bool) (s : string) : bool :=
  match s with
  | EmptyString => false
  | _ => all_chars class s
  end.

(** [!s] for a string that may be missing ([undefined]). *)
Definition falsy_string (s : option string) : bool :=
  match s with
  | None => true
  | Some EmptyString => true
  | Some _ => false
  end.

(** [s.length] *)
Definition strlen (s : string) : Z := Z.of_nat (String.length s).

(** ** Values *)

(** The values a table of counts can hold.  [Num n] is a number.
    [Text b m a] is the string [b ++ t ++ a] where [t] is the text that
    the [Object.prototype] member [m] converts to; see [builtin_text].
    Such a string is never empty and is not a numeric literal.  These are
    all the values that [+] builds from numbers and built-ins. *)
Inductive prim : Type :=
  | Num (n : Z)
  | Text (before member after : string).

(** What a property read can give: a primitive, or the object or function
    found under [member] in [Object.prototype]. *)
Inductive value : Type :=
  | Prim (p : prim)
  | Builtin (member : string).

(** The own properties of [Object.prototype] (ECMAScript with Annex B). *)
Definition Object_prototype_names : list string :=
  [ "constructor"; "__defineGetter__"; "__defineSetter__"; "hasOwnProperty";
    "__lookupGetter__"; "__lookupSetter__"; "isPrototypeOf";
    "propertyIsEnumerable"; "toString"; "valueOf"; "__proto__";
    "toLocaleString" ].

Definition in_Object_prototype (k : string) : bool :=
  existsb (String.eqb k) Object_prototype_names.

(** ToString of a built-in.  [__proto__] reads as [Object.prototype]
    itself, an ordinary object; [constructor] is the function [Object];
    every other member is a native function carrying its own name.  The
    text of a native function is the one V8 prints. *)
Definition builtin_text (member : string) : string :=
  if String.eqb member "__proto__" then "[object Object]"
  else
    "function "
    ++ (if String.eqb member "constructor" then "Object" else member)
    ++ "() { [native code] }".

(** ToString of an integral number. *)
Definition Z_to_string (n : Z) : string := NilZero.string_of_int (Z.to_int n).

Definition prim_to_string (p : prim) : string :=
  match p with
  | Num n => Z_to_string n
  | Text b m a => b ++ builtin_text m ++ a
  end.

Definition to_string (v : value) : string :=
  match v with
  | Prim p => prim_to_string p
  | Builtin m => builtin_text m
  end.

(** ToNumber; [None] is NaN. *)
Definition to_number (p : prim) : option Z :=
  match p with
  | Num n => Some n
  | Text _ _ _ => None
  end.

(** ToBoolean of the result of a property read; [None] is [undefined]. *)
Definition truthy (v : option value) : bool :=
  match v with
  | None => false
  | Some (Prim (Num n)) => negb (n =? 0)%Z
  | Some (Prim (Text _ _ _)) => true
  | Some (Builtin _) => true
  end.

(** [a || b] *)
Definition js_or (a : option value) (b : value) : value :=
  match a with
  | Some v => if truthy a then v else b
  | None => b
  end.

(** [a + b]: addition of two numbers, concatenation otherwise. *)
Definition js_add (a b : value) : prim :=
  match a, b with
  | Prim (Num x), Prim (Num y) => Num (x + y)
  | Prim (Num x), Prim (Text b' m a') => Text (Z_to_string x ++ b') m a'
  | Prim (Num x), Builtin m => Text (Z_to_string x) m ""
  | Prim (Text b' m a'), _ => Text b' m (a' ++ to_string b)
  | Builtin m, _ => Text "" m (to_string b)
  end.

(** [a - b] on two primitives; [None] is NaN. *)
Definition js_sub (a b : prim) : option Z :=
  match to_number a, to_number b with
  | Some x, Some y => Some (x - y)%Z
  | _, _ => None
  end.

(** ** Plain objects *)

(** The own enumerable properties, in the order [Object.entries] lists
    them: array-index keys first, in ascending order, then the other
    keys in the order of their creation. *)
Definition object : Type := list (string * prim).

Definition Object_entries (o : object) : list (string * prim) := o.
Definition Object_keys (o : object) : list string := map fst o.

Fixpoint own_get (o : object) (k : string) : option prim :=
  match o with
  | [] => None
  | (k', v) :: o' => if String.eqb k' k then Some v else own_get o' k
  end.

(** [o[k]]: the own property, else the one inherited from
    [Object.prototype], else [undefined]. *)
Definition obj_get (o : object) (k : string) : option value :=
  match own_get o k with
  | Some p => Some (Prim p)
  | None => if in_Object_prototype k then Some (Builtin k) else None
  end.

Fixpoint own_update (o : object) (k : string) (v : prim) : object :=
  match o with
  | [] => []
  | (k', v') :: o' =>
      if String.eqb k' k then (k', v) :: o' else (k', v') :: own_update o' k v
  end.

Fixpoint digits_value (acc : N) (s : string) : N :=
  match s with
  | EmptyString => acc
  | String c s' => digits_value (acc * 10 + (code c - 48))%N s'
  end.

(** An array index is a canonical numeric string below 2^32 - 1. *)
Definition array_index (k : string) : option N :=
  let canonical :=
    match k with
    | String c (String _ _) => negb (code c =? 48)%N
    | _ => true
    end in
  if test_all is_digit k && canonical && (digits_value 0 k <=? 4294967294)%N
  then Some (digits_value 0 k)
  else None.

Fixpoint insert_index (i : N) (k : string) (v : prim) (o : object) : object :=
  match o with
  | [] => [(k, v)]
  | (k', v') :: o' =>
      match array_index k' with
      | Some j =>
          if (j <? i)%N then (k', v') :: insert_index i k v o'
          else (k, v) :: o
      | None => (k, v) :: o
      end
  end.

(** Creation of an own property. *)
Definition own_add (o : object) (k : string) (v : prim) : object :=
  match array_index k with
  | Some i => insert_index i k v o
  | None => o ++ [(k, v)]
  end.

(** [o[k] = v] for a primitive [v].  An own property is overwritten in
    place.  Otherwise the property is created, except for [__proto__]:
    that name reaches the accessor of [Object.prototype], whose setter
    ignores a value that is neither an object nor [null]. *)
Definition obj_set (o : object) (k : string) (v : prim) : object :=
  match own_get o k with
  | Some _ => own_update o k v
  | None => if String.eqb k "__proto__" then o else own_add o k v
  end.

(** ** Arrays *)

(** [Array.prototype.sort(comparefn)].  The sort is stable; a NaN from
    [comparefn] counts as [+0].  With a consistent [comparefn] the result
    is determined: it is the one of this insertion sort.  ECMAScript
    leaves the order to the engine otherwise (it happens only when a
    count is no number); the order of this insertion sort is then one
    rearrangement of the entries, and an engine may return another. *)
Definition sorts_after (v : option Z) : bool :=
  match v with
  | Some z => (0 <? z)%Z
  | None => false
  end.

Fixpoint sort_insert {A : Type} (comparefn : A -> A -> option Z) (x : A)
    (l : list A) : list A :=
  match l with
  | [] => [x]
  | y :: l' =>
      if sorts_after (comparefn x y) then y :: sort_insert comparefn x l'
      else x :: l
  end.

Definition sort {A : Type} (comparefn : A -> A -> option Z) (l : list A)
    : list A :=
  fold_right (sort_insert comparefn) [] l.

(** [l.slice(0, e)] *)
Definition slice0 {A : Type} (l : list A) (e : Z) : list A :=
  let len := Z.of_nat (List.length l) in
  let final := if (e <? 0)%Z then Z.max (len + e) 0 else Z.min e len in
  firstn (Z.to_nat final) l.

(** [l.forEach((x, index) => ...)] with the state the callback updates. *)
Fixpoint forEach_from {A S : Type} (f : S -> A -> Z -> S) (index : Z)
    (l : list A) (s : S) : S :=
  match l with
  | [] => s
  | x :: l' => forEach_from f (index + 1)%Z l' (f s x index)
  end.

Definition forEach {A S : Type} (f : S -> A -> Z -> S) (l : list A) (s : S) : S :=
  forEach_from f 0%Z l s.

(** ** More array and string methods *)

(** [l.indexOf(x)] on an array of strings: the first index holding [x],
    or -1. *)
Fixpoint indexOf_from (l : list string) (x : string) (index : Z) : Z :=
  match l with
  | [] => (-1)%Z
  | y :: l' => if String.eqb y x then index else indexOf_from l' x (index + 1)%Z
  end.

Definition indexOf (l : list string) (x : string) : Z := indexOf_from l x 0%Z.

(** [array.filter((x, index, array) => ...)] *)
Fixpoint filter_from {A : Type} (f : A -> Z -> bool) (index : Z) (l : list A)
    : list A :=
  match l with
  | [] => []
  | x :: l' =>
      if f x index then x :: filter_from f (index + 1)%Z l'
      else filter_from f (index + 1)%Z l'
  end.

Definition filter_indexed {A : Type} (f : A -> Z -> list A -> bool)
    (array : list A) : list A :=
  filter_from (fun x index => f x index array) 0%Z array.

(** [l.join(sep)] on an array of strings. *)
Fixpoint join (sep : string) (l : list string) : string :=
  match l with
  | [] => ""
  | x :: l' =>
      match l' with
      | [] => x
      | _ => x ++ sep ++ join sep l'
      end
  end.

(** [s.replace(/^by\s+/i, '')]: a leading "by" in either case followed by
    whitespace is removed together with all of that whitespace. *)
Definition strip_by (s : string) : string :=
  match s with
  | String b (String y (String c rest)) =>
      if (Ascii.eqb b "b" || Ascii.eqb b "B")
         && (Ascii.eqb y "y" || Ascii.eqb y "Y") && is_space c
      then trimStart rest
      else s
  | _ => s
  end.

(** The double quote, for selectors that contain one. *)
Definition quote_char : string := String "034"%char EmptyString.

(** What the page answers to [page.$(selector)] followed by
    [element.textContent()]: no such element, an element with its text
    content ([None] is [null]), or a rejected promise. *)
Inductive probe : Type :=
  | Absent
  | Present (textContent : option string)
  | Rejected.

(** ** Completion of a call *)

Inductive error : Type := InvalidArgument | TypeError.

Inductive completion (A : Type) : Type :=
  | Normal (v : A)
  | Throw (e : error).
Arguments Normal {A} v.
Arguments Throw {A} e.

End Js.

(** ** The analyzer: text normalisation *)

Module WordAnalyzer.
Import Js.

Definition stopWords : list string :=
  [ "the"; "a"; "an"; "and"; "or"; "but"; "in"; "on"; "at"; "to"; "for"; "of"; "with"; "by";
    "is"; "are"; "was"; "were"; "be"; "been"; "being"; "have"; "has"; "had"; "do"; "does"; "did";
    "will"; "would"; "could"; "should"; "may"; "might"; "must"; "can"; "this"; "that"; "these";
    "those"; "i"; "you"; "he"; "she"; "it"; "we"; "they"; "me"; "him"; "her"; "us"; "them";
    "my"; "your"; "his"; "her"; "its"; "our"; "their"; "from"; "up"; "about"; "into"; "over";
    "after"; "all"; "any"; "both"; "each"; "few"; "more"; "most"; "other"; "some"; "such";
    "no"; "nor"; "not"; "only"; "own"; "same"; "so"; "than"; "too"; "very"; "just"; "now";
    "here"; "there"; "when"; "where"; "why"; "how"; "what"; "which"; "who"; "whom"; "whose";
    "if"; "because"; "as"; "until"; "while"; "through"; "during"; "before"; "after"; "above";
    "below"; "between"; "among"; "through"; "during"; "before"; "after"; "above"; "below" ].

(** [this.stopWords.has(word)] *)
Definition stopWords_has (word : string) : bool :=
  existsb (String.eqb word) stopWords.

Definition cleanText (text : option string) : string :=
  match text with
  | None => ""
  | Some s =>
      if falsy_string text then ""
      else
        trim
          (replace_runs is_space " "
             (replace_each (fun c => negb (is_word c || is_space c)) " "
                (toLowerCase s)))
  end.

Definition extractWords (text : option string) : list string :=
  let cleanedText := cleanText text in
  if falsy_string (Some cleanedText) then []
  else
    filter (fun word => (0 <? strlen (trim word))%Z)
      (filter (fun word => negb (test_all is_digit word))
         (filter (fun word => negb (stopWords_has word))
            (filter (fun word => (3 <=? strlen word)%Z)
               (split_runs is_space cleanedText)))).

(** ** The analyzer: counting and ranking *)

Module Ranked.
Record t : Type := { word : string; count : prim }.
End Ranked.

Module Analysis.
Record t : Type := {
  totalWords : Z;
  uniqueWords : Z;
  frequency : object;
  topWords : list Ranked.t
}.
End Analysis.

Module Article.
Record t : Type := {
  title : option string;
  url : option string;
  text : option string;
  author : option string;
  date : option string;
  index : option Z;
  error : option string;
  analysis : option Analysis.t
}.

(** [article.analysis = a] *)
Definition set_analysis (article : t) (a : Analysis.t) : t :=
  {| title := title article; url := url article; text := text article;
     author := author article; date := date article; index := index article;
     error := error article; analysis := Some a |}.
End Article.

Module Batch.
Record t : Type := {
  articles : list Article.t;
  combinedFrequency : object;
  topWords : list Ranked.t;
  totalArticles : Z
}.
End Batch.

Definition countWordFrequency (words : list string) : object :=
  fold_left
    (fun frequency word =>
       obj_set frequency word
         (js_add (js_or (obj_get frequency word) (Prim (Num 0))) (Prim (Num 1))))
    words [].

(** The default of the parameter [count] is 5; [None] is an omitted
    argument. *)
Definition getTopWords (frequency : object) (count : option Z) : list Ranked.t :=
  let count := match count with Some n => n | None => 5%Z end in
  slice0
    (sort (fun a b => js_sub (Ranked.count b) (Ranked.count a))
       (map (fun '(word, count) => {| Ranked.word := word; Ranked.count := count |})
          (Object_entries frequency)))
    count.

Definition analyzeText (text : option string) : Analysis.t :=
  let words := extractWords text in
  let frequency := countWordFrequency words in
  let topWords := getTopWords frequency None in
  {| Analysis.totalWords := Z.of_nat (List.length words);
     Analysis.uniqueWords := Z.of_nat (List.length (Object_keys frequency));
     Analysis.frequency := frequency;
     Analysis.topWords := topWords |}.

Definition combineFrequencies (frequencyObjects : list object) : object :=
  fold_left
    (fun combined freq =>
       fold_left
         (fun combined '(word, count) =>
            obj_set combined word
              (js_add (js_or (obj_get combined word) (Prim (Num 0))) (Prim count)))
         (Object_entries freq) combined)
    frequencyObjects [].

(** [article.text || ''] *)
Definition text_or_empty (article : Article.t) : string :=
  match Article.text article with
  | Some s => if falsy_string (Some s) then "" else s
  | None => ""
  end.

Definition analyzeMultipleArticles (articles : list Article.t)
    (topCount : option Z) : Batch.t :=
  let topCount := match topCount with Some n => n | None => 5%Z end in
  let '(articleAnalyses, allFrequencies) :=
    fold_left
      (fun '(articleAnalyses, allFrequencies) article =>
         let analysis := analyzeText (Some (text_or_empty article)) in
         let article := Article.set_analysis article analysis in
         (articleAnalyses ++ [article],
          allFrequencies ++ [Analysis.frequency analysis]))
      articles ([], []) in
  let combinedFrequency := combineFrequencies allFrequencies in
  let topWords := getTopWords combinedFrequency (Some topCount) in
  {| Batch.articles := articleAnalyses;
     Batch.combinedFrequency := combinedFrequency;
     Batch.topWords := topWords;
     Batch.totalArticles := Z.of_nat (List.length articles) |}.

(** ** The analyzer: the report *)

Definition nl : string := String "010"%char EmptyString.
Definition quote : string := String "034"%char EmptyString.

(** [s || d] for a string that may be missing. *)
Definition string_or (s : option string) (d : string) : string :=
  match s with
  | Some s' => if falsy_string s then d else s'
  | None => d
  end.

(** [article.analysis?.totalWords || 0] *)
Definition words_or_zero (article : Article.t) : Z :=
  match Article.analysis article with
  | Some a => if (Analysis.totalWords a =? 0)%Z then 0%Z else Analysis.totalWords a
  | None => 0%Z
  end.

(** [now] is the text of [new Date().toISOString()] at the time of the
    call. *)
Definition generateFileContent (now : string) (topWords : list Ranked.t)
    (analysis : Batch.t) : string :=
  (* string concatenation throughout *)
  (let content := "Word Frequency Analysis Results" ++ nl in
   let content := content ++ "===============================" ++ nl ++ nl in
   let content := content ++ "Analysis Date: " ++ now ++ nl in
   let content :=
     content ++ "Articles Analyzed: "
     ++ Z_to_string (Z.of_nat (List.length (Batch.articles analysis))) ++ nl ++ nl in
   let content := content ++ "Articles:" ++ nl in
   let content :=
     forEach
       (fun content article index =>
          let content :=
            content ++ Z_to_string (index + 1) ++ ". "
            ++ string_or (Article.title article) "Unknown Title" ++ nl in
          let content :=
            content ++ "   URL: "
            ++ string_or (Article.url article) "Unknown URL" ++ nl in
          content ++ "   Words: " ++ Z_to_string (words_or_zero article) ++ nl ++ nl)
       (Batch.articles analysis) content in
   let content :=
     content ++ "Top 5 Most Repeated Words Across All Articles:" ++ nl in
   let content :=
     content ++ "==============================================" ++ nl in
   let content :=
     forEach
       (fun content item index =>
          content ++ Z_to_string (index + 1) ++ ". " ++ quote ++ Ranked.word item
          ++ quote ++ " - " ++ prim_to_string (Ranked.count item)
          ++ " occurrences" ++ nl)
       topWords content in
   let content := content ++ nl ++ nl ++ "Generated by Haci Arpaci" ++ nl in
   content)%string.

(** ** Calls and their completion

    No method of the class contains a [throw], and on arguments of the
    types above every built-in the methods call completes normally. *)

Definition call_getTopWords (frequency : object) (count : option Z)
    : completion (list Ranked.t) :=
  Normal (getTopWords frequency count).

Definition call_analyzeText (text : option string) : completion Analysis.t :=
  Normal (analyzeText text).

Definition call_analyzeMultipleArticles (articles : list Article.t)
    (topCount : option Z) : completion Batch.t :=
  Normal (analyzeMultipleArticles articles topCount).

End WordAnalyzer.

(** ** The page objects and the helpers *)

(** [src/pages/ArticlePage.js].  The page is what it answers to the
    queries the methods make. *)
Module ArticlePage.
Import Js.

Definition cleanText (text : string) : string :=
  trim
    (toLowerCase
       (replace_each (fun c => negb (is_word c || is_space c)) " "
          (replace_runs is_space " " text))).

(** [matched] is the text content of the elements that the selector
    [p, h1, h2, h3, h4, h5, h6, li] matches, in document order, or the
    error the query ended with. *)
Definition getArticleText (matched : completion (list string)) : string :=
  match matched with
  | Normal contents =>
      let textElements :=
        filter (fun text => (0 <? strlen text)%Z) (map trim contents) in
      cleanText (join " " textElements)
  | Throw _ => ""
  end.

Definition getArticleTitle (page : string -> probe) : string :=
  match page "section[class=blog-post-main] h1" with
  | Present title =>
      match title with
      | Some t =>
          if negb (falsy_string title) && (0 <? strlen (trim t))%Z then trim t
          else "Unknown Title"
      | None => "Unknown Title"
      end
  | Absent => "Unknown Title"
  | Rejected => "Unknown Title"
  end.

(** The loop [for (const selector of selectors)] of [getAuthor] and of
    [getPublishDate]: the trimmed text of the first element that has
    some, [None] when the loop ends without one or a query is rejected
    (the [catch] returns the default as well). *)
Fixpoint first_text (page : string -> probe) (selectors : list string)
    : option string :=
  match selectors with
  | [] => None
  | selector :: rest =>
      match page selector with
      | Present content =>
          match content with
          | Some t =>
              if negb (falsy_string content) && (0 <? strlen (trim t))%Z
              then Some (trim t)
              else first_text page rest
          | None => first_text page rest
          end
      | Absent => first_text page rest
      | Rejected => None
      end
  end.

Definition authorSelectors : list string :=
  [ ".author"; "[class*=" ++ quote_char ++ "author" ++ quote_char ++ "]";
    "a:has-text(" ++ quote_char ++ "by " ++ quote_char ++ ")" ]%string.

Definition dateSelectors : list string :=
  [ ".date"; "[class*=" ++ quote_char ++ "date" ++ quote_char ++ "]" ]%string.

Definition getAuthor (page : string -> probe) : string :=
  match first_text page authorSelectors with
  | Some author => strip_by author
  | None => "Unknown Author"
  end.

Definition getPublishDate (page : string -> probe) : string :=
  match first_text page dateSelectors with
  | Some date => date
  | None => "Unknown Date"
  end.

End ArticlePage.

(** [src/pages/BlogPage.js].  [hrefs] are the [href]s of the anchors that
    the selector of [getArticleLinks] matches, in document order. *)
Module BlogPage.
Import Js.

Definition getArticleLinks (hrefs : list string) : list string :=
  filter_indexed
    (fun href index array => (indexOf array href =? index)%Z) hrefs.

Definition getLatestArticleLinks (hrefs : list string) (count : option Z)
    : list string :=
  let count := match count with Some n => n | None => 3%Z end in
  let allLinks := getArticleLinks hrefs in
  slice0 allLinks count.

Definition getArticleCount (hrefs : list string) : Z :=
  let links := getArticleLinks hrefs in
  Z.of_nat (List.length links).

Definition verifyArticlesLoaded (hrefs : list string) (minCount : option Z)
    : bool :=
  let minCount := match minCount with Some n => n | None => 3%Z end in
  let count := getArticleCount hrefs in
  (minCount <=? count)%Z.

End BlogPage.

(** [src/utils/TestHelpers.js].  [now] is the text of
    [new Date().toISOString()] at the time of the call. *)
Module TestHelpers.
Import Js.

Definition getTimestamp (now : string) : string :=
  replace_each (fun c => Ascii.eqb c ":" || Ascii.eqb c ".") "-" now.

End TestHelpers.

(** ** Specification vocabulary *)

Module Spec.
Import Js WordAnalyzer.

(** A lower-case word character: [a-z0-9_]. *)
Definition lowword (c : ascii) : bool :=
  is_lower c || is_digit c || (code c =? 95)%N.

(** [tidy b s]: every character of [s] is a single space or a lower-case
    word character, no two spaces are adjacent, and when [b] holds [s]
    does not begin with a space. *)
Fixpoint tidy (after_space : bool) (s : string) : Prop :=
  match s with
  | EmptyString => True
  | String c s' =>
      if Ascii.eqb c " " then after_space = false /\ tidy true s'
      else lowword c = true /\ tidy false s'
  end.

(** Lower-case alphanumeric tokens and underscores separated by single
    spaces, or the empty string. *)
Definition normalized (s : string) : Prop :=
  tidy true s /\ trimEnd s = s.

(** Every character of [s] is whitespace or a lower-case word character. *)
Fixpoint loose (s : string) : Prop :=
  match s with
  | EmptyString => True
  | String c s' => (is_space c = true \/ lowword c = true) /\ loose s'
  end.

(** The three filters of the tokenizer that can reject a token of the
    cleaned text. *)
Definition significant (word : string) : bool :=
  (3 <=? strlen word)%Z && negb (stopWords_has word)
  && negb (test_all is_digit word).

(** The result of analysing no words at all. *)
Definition zero_analysis : Analysis.t :=
  {| Analysis.totalWords := 0; Analysis.uniqueWords := 0;
     Analysis.frequency := []; Analysis.topWords := [] |}.

(** The entries of a table as ranked words in enumeration order, the
    comparison [getTopWords] sorts them with, and the whole table sorted:
    what [getTopWords] cuts its answer from. *)
Definition ranked_entries (frequency : object) : list Ranked.t :=
  map (fun e => {| Ranked.word := fst e; Ranked.count := snd e |})
    (Object_entries frequency).

Definition by_count_desc (a b : Ranked.t) : option Z :=
  js_sub (Ranked.count b) (Ranked.count a).

Definition ranking (frequency : object) : list Ranked.t :=
  sort by_count_desc (ranked_entries frequency).

(** A table whose counts are all numbers. *)
Definition numeric (o : object) : Prop :=
  Forall (fun e => exists n, snd e = Num n) o.

Definition numeric_ranked (l : list Ranked.t) : Prop :=
  Forall (fun r => exists n, Ranked.count r = Num n) l.

(** An object has one own property per key. *)
Definition well_formed (o : object) : Prop := NoDup (Object_keys o).

(** The number of distinct words of a table. *)
Definition distinct_words (o : object) : nat :=
  List.length (nodup string_dec (Object_keys o)).

(** [a] has a count at least as large as [b]'s. *)
Definition count_ge (a b : Ranked.t) : Prop :=
  match Ranked.count a, Ranked.count b with
  | Num x, Num y => (y <= x)%Z
  | _, _ => False
  end.

Definition has_count (n : Z) (r : Ranked.t) : bool :=
  match Ranked.count r with
  | Num x => (x =? n)%Z
  | Text _ _ _ => false
  end.

(** The ranked words of [l] whose count is [n], in the order of [l]. *)
Definition with_count (n : Z) (l : list Ranked.t) : list Ranked.t :=
  filter (has_count n) l.

(** [l1] is an initial segment of [l2]. *)
Definition initial_segment {A : Type} (l1 l2 : list A) : Prop :=
  l1 = firstn (List.length l1) l2.

(** What one call of the loop body of [analyzeMultipleArticles] leaves
    in the article: its own analysis. *)
Definition own_analysis (article : Article.t) : Analysis.t :=
  analyzeText (Some (text_or_empty article)).

Definition with_own_analysis (article : Article.t) : Article.t :=
  Article.set_analysis article (own_analysis article).

(** The parts of the report. *)
Definition title_shown (article : Article.t) : string :=
  match Article.title article with
  | Some (String c s) => String c s
  | _ => "Unknown Title"
  end.

Definition url_shown (article : Article.t) : string :=
  match Article.url article with
  | Some (String c s) => String c s
  | _ => "Unknown URL"
  end.

Definition words_shown (article : Article.t) : Z :=
  match Article.analysis article with
  | Some a => Analysis.totalWords a
  | None => 0%Z
  end.

(** The entry of the article at the 1-based [position]. *)
Definition article_entry (position : nat) (article : Article.t) : string :=
  Z_to_string (Z.of_nat position) ++ ". " ++ title_shown article ++ nl
  ++ "   URL: " ++ url_shown article ++ nl
  ++ "   Words: " ++ Z_to_string (words_shown article) ++ nl ++ nl.

(** The line of the ranked word at the 1-based [position]. *)
Definition word_entry (position : nat) (item : Ranked.t) : string :=
  Z_to_string (Z.of_nat position) ++ ". " ++ quote ++ Ranked.word item ++ quote
  ++ " - " ++ prim_to_string (Ranked.count item) ++ " occurrences" ++ nl.

(** The entries of a list one after the other, numbered from [first]. *)
Fixpoint listing {A : Type} (entry : nat -> A -> string) (first : nat)
    (l : list A) : string :=
  match l with
  | [] => ""
  | x :: l' => entry first x ++ listing entry (S first) l'
  end.

(** The article objects that [src/tests/blog.spec.js] hands to the
    analyzer: one for an article whose extraction succeeded, one for an
    article whose extraction failed with [message]. *)
Definition extracted (i : Z) (title url text author date : string) : Article.t :=
  {| Article.title := Some title; Article.url := Some url;
     Article.text := Some text; Article.author := Some author;
     Article.date := Some date; Article.index := Some i;
     Article.error := None; Article.analysis := None |}.

Definition extraction_failed (i : Z) (url message : string) : Article.t :=
  {| Article.title := Some ("Article " ++ Z_to_string i ++ " (Error)")%string;
     Article.url := Some url; Article.text := Some "";
     Article.author := Some "Unknown"; Article.date := Some "Unknown";
     Article.index := Some i; Article.error := Some message;
     Article.analysis := None |}.

(** The update of a table that both [countWordFrequency] and
    [combineFrequencies] make for a word [w] and an amount [c]:
    [table[w] = (table[w] || 0) + c]. *)
Definition bump (table : object) (w : string) (c : prim) : object :=
  obj_set table w (js_add (js_or (obj_get table w) (Prim (Num 0))) (Prim c)).

(** The numeric count a table holds for [w]: 0 when [w] is absent. *)
Definition count_in (o : object) (w : string) : Z :=
  match own_get o w with
  | Some (Num n) => n
  | _ => 0%Z
  end.

Definition has_word (o : object) (w : string) : bool :=
  match own_get o w with
  | Some _ => true
  | None => false
  end.

(** The sum of the numeric counts of a table. *)
Fixpoint sum_counts (o : object) : Z :=
  match o with
  | [] => 0%Z
  | (_, Num n) :: o' => (n + sum_counts o')%Z
  | (_, Text _ _ _) :: o' => sum_counts o'
  end.

(** Every count of the table is a number, and at least 1. *)
Definition positive_counts (o : object) : Prop :=
  Forall (fun e => exists n, snd e = Num n /\ (1 <= n)%Z) o.

(** No own key of the table is a property name of [Object.prototype]. *)
Definition plain_keys (o : object) : Prop :=
  Forall (fun e => in_Object_prototype (fst e) = false) o.

(** A table as the data model describes it: positive numeric counts,
    one entry per word, and no key that [Object.prototype] also has. *)
Definition sound_table (o : object) : Prop :=
  positive_counts o /\ plain_keys o /\ well_formed o.

(** The sum over the tables of a batch of their counts for [w]. *)
Fixpoint total_count (tables : list object) (w : string) : Z :=
  match tables with
  | [] => 0%Z
  | t :: tables' => (count_in t w + total_count tables' w)%Z
  end.

(** [piece] occurs in [s]. *)
Definition occurs_in (piece s : string) : Prop :=
  exists before after : string, s = (before ++ piece ++ after)%string.

(** ** Vocabulary for the page objects and for words *)

Definition nonword (c : ascii) : bool := negb (is_word c).

Definition nonempty (s : string) : bool :=
  match s with
  | EmptyString => false
  | String _ _ => true
  end.

(** The maximal runs of word characters of the lower-cased text. *)
Definition word_runs (s : string) : list string :=
  filter nonempty (split_runs nonword (toLowerCase s)).

(** The distinct elements of a list in the order of their first
    occurrence. *)
Fixpoint first_seen (l : list string) : list string :=
  match l with
  | [] => []
  | x :: l' => x :: filter (fun y => negb (String.eqb y x)) (first_seen l')
  end.

(** One step of [split_runs_from]: what a character [c] read with the
    flag [b] makes of the pieces [L] of the rest. *)
Definition cons_first (c : ascii) (L : list string) : list string :=
  match L with
  | [] => [String c EmptyString]
  | t :: ts => String c t :: ts
  end.

Definition split_step (class : ascii -> bool) (c : ascii) (b : bool)
    (L : list string) : list string :=
  if class c then (if b then L else EmptyString :: L) else cons_first c L.

(** A string that is not empty and has no whitespace at either end. *)
Definition presentable (s : string) : Prop :=
  s <> EmptyString /\ trim s = s.

(** Every character of [s] satisfies [class]. *)
Definition only (class : ascii -> bool) (s : string) : Prop :=
  all_chars class s = true.

End Spec.

Import Js WordAnalyzer Spec.

(** ** Characters *)

Ltac each_char c :=
  destruct c as [[] [] [] [] [] [] [] []]; vm_compute; try tauto; try discriminate;
  auto.

Lemma lowered_word_is_lowword (c : ascii) :
  is_word (lower_char c) = true -> lowword (lower_char c) = true.
Proof. each_char c. Qed.

Lemma lowword_fixed (c : ascii) : lowword c = true -> lower_char c = c.
Proof. each_char c. Qed.

Lemma lowword_is_word (c : ascii) : lowword c = true -> is_word c = true.
Proof. each_char c. Qed.

Lemma lowword_not_space (c : ascii) : lowword c = true -> is_space c = false.
Proof. each_char c. Qed.

Lemma space_not_word (c : ascii) : is_space c = true -> is_word c = false.
Proof. each_char c. Qed.

Lemma eqb_space_is_space (c : ascii) : Ascii.eqb c " " = true -> is_space c = true.
Proof. intros H. apply Ascii.eqb_eq in H. subst c. reflexivity. Qed.

(** ** The normalizer produces normalized text *)

Lemma punct_lower_loose (s : string) :
  loose (replace_each (fun c => negb (is_word c || is_space c)) " " (toLowerCase s)).
Proof.
  induction s as [|c s IH]; simpl; [exact I|].
  split; [|exact IH].
  destruct (is_word (lower_char c)) eqn:Hw; simpl.
  - right. now apply lowered_word_is_lowword.
  - destruct (is_space (lower_char c)) eqn:Hs; simpl; left; [exact Hs|reflexivity].
Qed.

Lemma tidy_char (b : bool) (c : ascii) (s : string) :
  lowword c = true -> tidy false s -> tidy b (String c s).
Proof.
  intros Hc Hs. simpl.
  destruct (Ascii.eqb c " ") eqn:E; [|now split].
  apply eqb_space_is_space in E. rewrite (lowword_not_space c Hc) in E.
  discriminate.
Qed.

Lemma runs_tidy (s : string) (b : bool) :
  loose s -> tidy b (replace_runs_from is_space " " b s).
Proof.
  revert b. induction s as [|c s IH]; intros b Hl; simpl; [exact I|].
  destruct Hl as [Hc Hl].
  destruct (is_space c) eqn:Hs.
  - destruct b; [now apply IH|].
    simpl. split; [reflexivity|now apply IH].
  - destruct Hc as [Hc|Hc]; [congruence|].
    apply tidy_char; [exact Hc|now apply IH].
Qed.

Lemma tidy_weaken (s : string) : tidy true s -> tidy false s.
Proof.
  destruct s as [|c s]; simpl; [auto|].
  destruct (Ascii.eqb c " "); [intros [H _]; discriminate|auto].
Qed.

Lemma trimStart_tidy_id (s : string) : tidy true s -> trimStart s = s.
Proof.
  destruct s as [|c s]; simpl; [reflexivity|].
  destruct (Ascii.eqb c " "); [intros [H _]; discriminate|].
  intros [Hc _]. now rewrite (lowword_not_space c Hc).
Qed.

Lemma trimStart_tidy (s : string) : tidy false s -> tidy true (trimStart s).
Proof.
  destruct s as [|c s]; [auto|].
  intros H. cbn [tidy] in H.
  destruct (Ascii.eqb c " ") eqn:E.
  - destruct H as [_ H]. cbn [trimStart].
    rewrite (eqb_space_is_space c E).
    now rewrite (trimStart_tidy_id s H).
  - destruct H as [Hc H]. cbn [trimStart].
    rewrite (lowword_not_space c Hc). now apply tidy_char.
Qed.

Lemma trimEnd_cons (c : ascii) (s : string) :
  trimEnd (String c s) =
  match trimEnd s with
  | EmptyString => if is_space c then EmptyString else String c EmptyString
  | r => String c r
  end.
Proof. reflexivity. Qed.

Lemma trimEnd_idempotent (s : string) : trimEnd (trimEnd s) = trimEnd s.
Proof.
  induction s as [|c s IH]; [reflexivity|].
  rewrite trimEnd_cons.
  destruct (trimEnd s) as [|d r] eqn:E.
  - destruct (is_space c) eqn:Hs; [reflexivity|].
    rewrite trimEnd_cons. simpl. now rewrite Hs.
  - rewrite trimEnd_cons, IH. reflexivity.
Qed.

Lemma trimEnd_tidy (s : string) (b : bool) : tidy b s -> tidy b (trimEnd s).
Proof.
  revert b. induction s as [|c s IH]; intros b H; [exact I|].
  rewrite trimEnd_cons. cbn [tidy] in H.
  destruct (Ascii.eqb c " ") eqn:E.
  - destruct H as [Hb H]. apply IH in H.
    destruct (trimEnd s) as [|d r] eqn:Er.
    + rewrite (eqb_space_is_space c E). exact I.
    + cbn [tidy]. rewrite E. now split.
  - destruct H as [Hc H]. apply IH in H.
    destruct (trimEnd s) as [|d r] eqn:Er.
    + rewrite (lowword_not_space c Hc). now apply tidy_char.
    + now apply tidy_char.
Qed.

Lemma trim_normalized (s : string) : tidy false s -> normalized (trim s).
Proof.
  intros H. split.
  - apply trimEnd_tidy. now apply trimStart_tidy.
  - apply trimEnd_idempotent.
Qed.

Lemma cleanText_normalized (text : option string) : normalized (cleanText text).
Proof.
  destruct text as [s|]; [|now split].
  unfold cleanText. destruct (falsy_string (Some s)); [now split|].
  apply trim_normalized, runs_tidy, punct_lower_loose.
Qed.

(** ** Normalized text is left as it is *)

Lemma toLowerCase_tidy (s : string) (b : bool) : tidy b s -> toLowerCase s = s.
Proof.
  revert b. induction s as [|c s IH]; intros b H; [reflexivity|].
  cbn [tidy] in H. cbn [toLowerCase].
  destruct (Ascii.eqb c " ") eqn:E.
  - apply Ascii.eqb_eq in E. subst c. destruct H as [_ H].
    now rewrite (IH _ H).
  - destruct H as [Hc H]. now rewrite (lowword_fixed c Hc), (IH _ H).
Qed.

Lemma replace_punct_tidy (s : string) (b : bool) :
  tidy b s ->
  replace_each (fun c => negb (is_word c || is_space c)) " " s = s.
Proof.
  revert b. induction s as [|c s IH]; intros b H; [reflexivity|].
  cbn [tidy] in H. cbn [replace_each].
  destruct (Ascii.eqb c " ") eqn:E.
  - destruct H as [_ H]. rewrite (eqb_space_is_space c E), orb_true_r.
    cbn [negb]. now rewrite (IH _ H).
  - destruct H as [Hc H]. rewrite (lowword_is_word c Hc).
    cbn [orb negb]. now rewrite (IH _ H).
Qed.

Lemma replace_runs_tidy (s : string) (b : bool) :
  tidy b s -> replace_runs_from is_space " " b s = s.
Proof.
  revert b. induction s as [|c s IH]; intros b H; [reflexivity|].
  cbn [tidy] in H. cbn [replace_runs_from].
  destruct (Ascii.eqb c " ") eqn:E.
  - destruct H as [Hb H]. subst b. rewrite (eqb_space_is_space c E).
    apply Ascii.eqb_eq in E. subst c. now rewrite (IH _ H).
  - destruct H as [Hc H]. rewrite (lowword_not_space c Hc).
    now rewrite (IH _ H).
Qed.

Lemma cleanText_fixes_normalized (s : string) :
  normalized s -> cleanText (Some s) = s.
Proof.
  intros [Ht He]. unfold cleanText.
  destruct (falsy_string (Some s)) eqn:F.
  - destruct s; [reflexivity|discriminate].
  - rewrite (toLowerCase_tidy s true Ht), (replace_punct_tidy s true Ht).
    unfold replace_runs. rewrite (replace_runs_tidy s false (tidy_weaken s Ht)).
    unfold trim. now rewrite (trimStart_tidy_id s Ht).
Qed.

(** C7: the normalizer [cleanText] is idempotent: cleaning text that has
    been cleaned already changes nothing, whatever the input (missing,
    empty or any string). *)
Theorem cleanText_idempotent (text : option string) :
  cleanText (Some (cleanText text)) = cleanText text.
Proof. apply cleanText_fixes_normalized, cleanText_normalized. Qed.

(** ** The tokenizer *)

Lemma split_tokens_no_space (s : string) (b : bool) (t : string) :
  In t (split_runs_from is_space b s) ->
  all_chars (fun c => negb (is_space c)) t = true.
Proof.
  revert b t. induction s as [|c s IH]; intros b t H; cbn [split_runs_from] in H.
  - destruct H as [<-|[]]. reflexivity.
  - destruct (is_space c) eqn:Hs.
    + destruct b; [now apply (IH true)|].
      destruct H as [<-|H]; [reflexivity|now apply (IH true)].
    + destruct (split_runs_from is_space false s) as [|t0 ts] eqn:E.
      * destruct H as [<-|[]]. cbn. now rewrite Hs.
      * destruct H as [<-|H].
        -- cbn [all_chars]. rewrite Hs. cbn [negb andb].
           apply (IH false). rewrite E. now left.
        -- apply (IH false). rewrite E. now right.
Qed.

Lemma trimEnd_no_space (t : string) :
  all_chars (fun c => negb (is_space c)) t = true -> trimEnd t = t.
Proof.
  induction t as [|c t IH]; [reflexivity|].
  cbn [all_chars]. intros H. apply andb_prop in H. destruct H as [Hc Ht].
  rewrite trimEnd_cons, (IH Ht).
  destruct t; [|reflexivity].
  apply negb_true_iff in Hc. now rewrite Hc.
Qed.

Lemma trim_no_space (t : string) :
  all_chars (fun c => negb (is_space c)) t = true -> trim t = t.
Proof.
  intros H. unfold trim.
  assert (Hs : trimStart t = t).
  { destruct t as [|c t]; [reflexivity|].
    cbn [all_chars] in H. apply andb_prop in H. destruct H as [Hc _].
    apply negb_true_iff in Hc. cbn [trimStart]. now rewrite Hc. }
  rewrite Hs. now apply trimEnd_no_space.
Qed.

Lemma filters_significant (l : list string) :
  (forall t, In t l -> trim t = t) ->
  filter (fun word => (0 <? strlen (trim word))%Z)
    (filter (fun word => negb (test_all is_digit word))
       (filter (fun word => negb (stopWords_has word))
          (filter (fun word => (3 <=? strlen word)%Z) l)))
  = filter significant l.
Proof.
  induction l as [|x l IH]; intros Hl; [reflexivity|].
  assert (IH' := IH (fun t Ht => Hl t (or_intror Ht))).
  assert (Hx := Hl x (or_introl eq_refl)).
  unfold significant in *. cbn [filter].
  destruct (3 <=? strlen x)%Z eqn:H3; cbn [andb filter]; [|exact IH'].
  destruct (stopWords_has x); cbn [negb andb filter]; [exact IH'|].
  destruct (test_all is_digit x); cbn [negb andb filter]; [exact IH'|].
  rewrite Hx.
  assert (H0 : (0 <? strlen x)%Z = true) by (apply Z.leb_le in H3; apply Z.ltb_lt; lia).
  rewrite H0. now f_equal.
Qed.

Lemma extractWords_significant (text : option string) :
  extractWords text = filter significant (split_runs is_space (cleanText text)).
Proof.
  unfold extractWords.
  destruct (falsy_string (Some (cleanText text))) eqn:F.
  - destruct (cleanText text); [reflexivity|discriminate].
  - apply filters_significant. intros t Ht.
    apply trim_no_space. exact (split_tokens_no_space _ _ _ Ht).
Qed.

Lemma stopWords_has_In (word : string) :
  stopWords_has word = true <-> In word stopWords.
Proof.
  unfold stopWords_has. rewrite existsb_exists. split.
  - intros [x [Hin Heq]]. apply String.eqb_eq in Heq. now subst x.
  - intros Hin. exists word. split; [exact Hin|apply String.eqb_refl].
Qed.

Lemma test_all_all_chars (class : ascii -> bool) (s : string) :
  s <> EmptyString -> test_all class s = all_chars class s.
Proof. destruct s; [congruence|reflexivity]. Qed.

(** C5: no token in the output of [extractWords] is shorter than 3
    characters, consists of digits only, or is a stop word; the output is
    exactly the tokens of the cleaned text that pass these three tests,
    in order and with their repetitions, so a token of length exactly 3
    that is neither a stop word nor a number is retained. *)
Theorem extractWords_filtering (text : option string) :
  extractWords text = filter significant (split_runs is_space (cleanText text))
  /\ (forall word, In word (extractWords text) ->
        (3 <= strlen word)%Z /\ all_chars is_digit word = false
        /\ ~ In word stopWords)
  /\ (forall word, In word (split_runs is_space (cleanText text)) ->
        strlen word = 3%Z -> ~ In word stopWords ->
        all_chars is_digit word = false ->
        In word (extractWords text)).
Proof.
  rewrite extractWords_significant. split; [reflexivity|]. split.
  - intros word H. apply filter_In in H. destruct H as [_ H].
    unfold significant in H.
    apply andb_prop in H. destruct H as [H Hd].
    apply andb_prop in H. destruct H as [H3 Hs].
    apply Z.leb_le in H3. apply negb_true_iff in Hd, Hs.
    split; [exact H3|]. split.
    + rewrite <- test_all_all_chars; [exact Hd|].
      intros ->. unfold strlen in H3. simpl in H3. lia.
    + intros Hin. apply stopWords_has_In in Hin. congruence.
  - intros word Hin H3 Hs Hd. apply filter_In. split; [exact Hin|].
    unfold significant.
    assert (Hs' : stopWords_has word = false).
    { destruct (stopWords_has word) eqn:E; [|reflexivity].
      apply stopWords_has_In in E. contradiction. }
    rewrite Hs', test_all_all_chars, Hd, H3; [reflexivity|].
    intros ->. discriminate.
Qed.

Lemma extractWords_filtering_witness :
  In "fox" (extractWords (Some "The fox, 42 is at 7!")).
Proof.
  apply (proj2 (proj2 (extractWords_filtering (Some "The fox, 42 is at 7!")))).
  - vm_compute. right. left. reflexivity.
  - reflexivity.
  - intros H. apply stopWords_has_In in H. vm_compute in H. discriminate.
  - reflexivity.
Defined.

(** ** A worked example *)

(** C8: on the text "The Quick, quick fox jumps! The fox runs." the
    normalizer gives "the quick quick fox jumps the fox runs", the
    tokenizer gives quick, quick, fox, jumps, fox, runs, the counter
    gives quick:2, fox:2, jumps:1, runs:1, and the two top words are
    quick (2) and fox (2), in that order. *)
Theorem quick_fox_scenario :
  let text := Some "The Quick, quick fox jumps! The fox runs." in
  cleanText text = "the quick quick fox jumps the fox runs"
  /\ extractWords text = ["quick"; "quick"; "fox"; "jumps"; "fox"; "runs"]
  /\ countWordFrequency (extractWords text)
     = [("quick", Num 2); ("fox", Num 2); ("jumps", Num 1); ("runs", Num 1)]
  /\ getTopWords (countWordFrequency (extractWords text)) (Some 2%Z)
     = [ {| Ranked.word := "quick"; Ranked.count := Num 2 |};
         {| Ranked.word := "fox"; Ranked.count := Num 2 |} ].
Proof. cbv zeta. repeat split; vm_compute; reflexivity. Qed.

(** ** Empty and missing text *)

(** C6: [analyzeText] completes normally on every text, missing and
    empty ones included, and on a missing or empty text its result is the
    zero-valued one: no words, no unique words, an empty table and no
    top words. *)
Theorem analyzeText_never_raises :
  (forall text : option string,
     call_analyzeText text = Normal (analyzeText text)
     /\ call_analyzeText text <> Throw InvalidArgument
     /\ call_analyzeText text <> Throw TypeError)
  /\ analyzeText None = zero_analysis
  /\ analyzeText (Some "") = zero_analysis.
Proof.
  split; [|split; reflexivity].
  intros text. unfold call_analyzeText. repeat split; discriminate.
Qed.

(** ** Sorting *)

Section Sort.
Context {A : Type} (comparefn : A -> A -> option Z).

Lemma sort_insert_perm (x : A) (l : list A) :
  Permutation (x :: l) (sort_insert comparefn x l).
Proof.
  induction l as [|y l IH]; cbn [sort_insert]; [reflexivity|].
  destruct (sorts_after (comparefn x y)); [|reflexivity].
  rewrite perm_swap. now apply perm_skip.
Qed.

Lemma sort_perm (l : list A) : Permutation l (sort comparefn l).
Proof.
  induction l as [|x l IH]; [reflexivity|].
  cbn [sort fold_right]. fold (sort comparefn l).
  rewrite <- sort_insert_perm. now apply perm_skip.
Qed.

Lemma sort_length (l : list A) : List.length (sort comparefn l) = List.length l.
Proof. symmetry. apply Permutation_length, sort_perm. Qed.

End Sort.

Lemma filter_firstn_initial {A : Type} (f : A -> bool) (k : nat) (l : list A) :
  initial_segment (filter f (firstn k l)) (filter f l).
Proof.
  unfold initial_segment. revert k.
  induction l as [|x l IH]; intros k; [now rewrite firstn_nil|].
  destruct k as [|k]; [reflexivity|].
  cbn [firstn filter]. destruct (f x).
  - cbn [List.length firstn]. f_equal. apply IH.
  - apply IH.
Qed.

Lemma StronglySorted_firstn {A : Type} (R : A -> A -> Prop) (k : nat) (l : list A) :
  StronglySorted R l -> StronglySorted R (firstn k l).
Proof.
  intros H. revert k. induction H as [|x l Hl IH Hx]; intros k.
  - rewrite firstn_nil. constructor.
  - destruct k as [|k]; cbn [firstn]; constructor; [apply IH|].
    rewrite Forall_forall in *. intros y Hy. apply Hx.
    rewrite <- (firstn_skipn k l). apply in_or_app. now left.
Qed.

(** ** Ranking a table of numbers *)

Lemma numeric_ranked_entries (freq : object) :
  numeric freq -> numeric_ranked (ranked_entries freq).
Proof.
  unfold numeric, numeric_ranked, ranked_entries, Object_entries.
  intros H. apply Forall_map. exact H.
Qed.

Lemma by_count_desc_numbers (a b : Ranked.t) (ca cb : Z) :
  Ranked.count a = Num ca -> Ranked.count b = Num cb ->
  by_count_desc a b = Some (cb - ca)%Z.
Proof.
  destruct a as [wa pa], b as [wb pb]. cbn. now intros -> ->.
Qed.

Lemma has_count_number (n : Z) (r : Ranked.t) (c : Z) :
  Ranked.count r = Num c -> has_count n r = (c =? n)%Z.
Proof. destruct r as [w p]. cbn. now intros ->. Qed.

Lemma insert_sorted (x : Ranked.t) (l : list Ranked.t) :
  numeric_ranked (x :: l) ->
  StronglySorted count_ge l ->
  StronglySorted count_ge (sort_insert by_count_desc x l).
Proof.
  intros Hn. inversion Hn as [|? ? [cx Hx] Hl]; subst. clear Hn.
  induction l as [|y l IH]; intros Hs; cbn [sort_insert].
  - repeat constructor.
  - inversion Hl as [|? ? [cy Hcy] Hl']; subst.
    apply StronglySorted_inv in Hs. destruct Hs as [Hs Hy].
    rewrite (by_count_desc_numbers x y cx cy Hx Hcy). cbn [sorts_after].
    destruct (0 <? cy - cx)%Z eqn:E.
    + apply Z.ltb_lt in E. constructor; [now apply IH|].
      rewrite Forall_forall in *. intros z Hz.
      apply (Permutation_in z (Permutation_sym (sort_insert_perm _ x l))) in Hz.
      destruct Hz as [<-|Hz]; [|now apply Hy].
      unfold count_ge. rewrite Hx, Hcy. lia.
    + apply Z.ltb_ge in E. constructor; [now constructor|].
      constructor.
      * unfold count_ge. rewrite Hx, Hcy. lia.
      * rewrite Forall_forall in *. intros z Hz.
        specialize (Hy z Hz). unfold count_ge in *. rewrite Hx.
        rewrite Hcy in Hy. destruct (Ranked.count z); [lia|contradiction].
Qed.

Lemma sort_numeric (l : list Ranked.t) :
  numeric_ranked l -> numeric_ranked (sort by_count_desc l).
Proof.
  unfold numeric_ranked. intros H. rewrite Forall_forall in *.
  intros r Hr. apply H.
  exact (Permutation_in r (Permutation_sym (sort_perm _ l)) Hr).
Qed.

Lemma sort_sorted (l : list Ranked.t) :
  numeric_ranked l -> StronglySorted count_ge (sort by_count_desc l).
Proof.
  induction l as [|x l IH]; intros Hn; [constructor|].
  cbn [sort fold_right]. fold (sort by_count_desc l).
  inversion Hn as [|? ? Hx Hl]; subst.
  apply insert_sorted; [|now apply IH].
  constructor; [exact Hx|now apply sort_numeric].
Qed.

(** Stability: the words of any one count keep their order. *)
Lemma insert_stable (n : Z) (x : Ranked.t) (l : list Ranked.t) :
  numeric_ranked (x :: l) ->
  with_count n (sort_insert by_count_desc x l) = with_count n (x :: l).
Proof.
  intros Hn. inversion Hn as [|? ? [cx Hx] Hl]; subst. clear Hn.
  induction l as [|y l IH]; [reflexivity|].
  inversion Hl as [|? ? [cy Hcy] Hl']; subst.
  cbn [sort_insert].
  rewrite (by_count_desc_numbers x y cx cy Hx Hcy). cbn [sorts_after].
  destruct (0 <? cy - cx)%Z eqn:E; [|reflexivity].
  apply Z.ltb_lt in E.
  specialize (IH Hl'). unfold with_count in *. cbn [filter] in *.
  rewrite IH, (has_count_number n x cx Hx), (has_count_number n y cy Hcy).
  destruct (cy =? n)%Z eqn:Ey; destruct (cx =? n)%Z eqn:Ex; try reflexivity.
  apply Z.eqb_eq in Ey, Ex. lia.
Qed.

Lemma sort_stable (n : Z) (l : list Ranked.t) :
  numeric_ranked l -> with_count n (sort by_count_desc l) = with_count n l.
Proof.
  induction l as [|x l IH]; intros Hn; [reflexivity|].
  cbn [sort fold_right]. fold (sort by_count_desc l).
  inversion Hn as [|? ? Hx Hl]; subst.
  rewrite insert_stable.
  - unfold with_count in *. cbn [filter]. now rewrite (IH Hl).
  - constructor; [exact Hx|now apply sort_numeric].
Qed.

Lemma getTopWords_slice (freq : object) (count : option Z) :
  getTopWords freq count
  = slice0 (ranking freq) (match count with Some n => n | None => 5%Z end).
Proof.
  unfold getTopWords, ranking, ranked_entries, by_count_desc. do 2 f_equal.
  apply map_ext. now intros [w c].
Qed.

Lemma ranking_length (freq : object) :
  List.length (ranking freq) = List.length (Object_keys freq).
Proof.
  unfold ranking, ranked_entries, Object_entries, Object_keys.
  now rewrite sort_length, !length_map.
Qed.

Lemma slice0_nonneg {A : Type} (l : list A) (n : Z) :
  (0 <= n)%Z -> slice0 l n = firstn (Nat.min (Z.to_nat n) (List.length l)) l.
Proof.
  intros Hn. unfold slice0.
  destruct (n <? 0)%Z eqn:E; [apply Z.ltb_lt in E; lia|].
  f_equal. lia.
Qed.

Lemma slice0_negative {A : Type} (l : list A) (n : Z) :
  (n < 0)%Z -> slice0 l n = firstn (List.length l - Z.to_nat (- n)) l.
Proof.
  intros Hn. unfold slice0.
  apply Z.ltb_lt in Hn. rewrite Hn. apply Z.ltb_lt in Hn.
  f_equal. lia.
Qed.

(** C4: on a table of numeric counts and a requested number [N >= 0],
    [getTopWords] returns a sequence sorted by descending count, of
    length [min N d] where [d] is the number of distinct words, made of
    entries of the table; words of equal count come in the enumeration
    order of the table (the sort is stable); and the empty table yields
    the empty sequence. *)
Theorem getTopWords_ranking_correct :
  (forall (freq : object) (N : Z),
     numeric freq -> well_formed freq -> (0 <= N)%Z ->
     StronglySorted count_ge (getTopWords freq (Some N))
     /\ Z.of_nat (List.length (getTopWords freq (Some N)))
        = Z.min N (Z.of_nat (distinct_words freq))
     /\ (forall r, In r (getTopWords freq (Some N)) ->
           In (Ranked.word r, Ranked.count r) (Object_entries freq))
     /\ (forall n, initial_segment (with_count n (getTopWords freq (Some N)))
                     (with_count n (ranked_entries freq))))
  /\ getTopWords [] (Some 5%Z) = [].
Proof.
  split; [|reflexivity].
  intros freq N Hnum Hwf HN.
  rewrite getTopWords_slice, (slice0_nonneg _ N HN).
  assert (Hr := numeric_ranked_entries freq Hnum).
  repeat split.
  - apply StronglySorted_firstn, sort_sorted, Hr.
  - rewrite length_firstn, ranking_length.
    unfold distinct_words. rewrite (nodup_fixed_point string_dec Hwf). lia.
  - intros r Hin.
    assert (Hin' : In r (ranking freq)).
    { rewrite <- (firstn_skipn (Nat.min (Z.to_nat N) (List.length (ranking freq)))
                    (ranking freq)).
      apply in_or_app. now left. }
    apply (Permutation_in r (Permutation_sym (sort_perm _ _))) in Hin'.
    unfold ranked_entries in Hin'. apply in_map_iff in Hin'.
    destruct Hin' as [[w c] [<- He]]. exact He.
  - intros n. rewrite <- (sort_stable n _ Hr).
    exact (filter_firstn_initial (has_count n) _ (ranking freq)).
Qed.

Lemma getTopWords_ranking_correct_witness :
  getTopWords [("fox", Num 2); ("runs", Num 1); ("quick", Num 2)] (Some 2%Z)
  = [ {| Ranked.word := "fox"; Ranked.count := Num 2 |};
      {| Ranked.word := "quick"; Ranked.count := Num 2 |} ]
  /\ StronglySorted count_ge
       (getTopWords [("fox", Num 2); ("runs", Num 1); ("quick", Num 2)] (Some 2%Z)).
Proof.
  split; [reflexivity|].
  apply (proj1 getTopWords_ranking_correct
           [("fox", Num 2); ("runs", Num 1); ("quick", Num 2)] 2%Z).
  - repeat constructor; eexists; reflexivity.
  - repeat constructor; simpl; intuition discriminate.
  - lia.
Defined.

(** ** Negative counts *)

Lemma firstn_min_length {A : Type} (k : nat) (l : list A) :
  firstn (Nat.min k (List.length l)) l = firstn k l.
Proof.
  destruct (Nat.le_gt_cases k (List.length l)) as [H|H].
  - now rewrite Nat.min_l.
  - rewrite Nat.min_r by lia. rewrite firstn_all. symmetry.
    apply firstn_all2. lia.
Qed.

(** C1, as the code has it: a negative count is not rejected.
    [getTopWords] and [analyzeMultipleArticles] complete normally for
    every count, negative or not; for [N >= 0] the answer is the first
    [N] words of the ranking, and for [N < 0] it is the ranking without
    its last [-N] words. *)
Theorem counts_never_raise (freq : object) (articles : list Article.t) (N : Z) :
  (exists top,
      call_getTopWords freq (Some N) = Normal top
      /\ ((0 <= N)%Z -> top = firstn (Z.to_nat N) (ranking freq))
      /\ ((N < 0)%Z ->
          top = firstn (List.length (ranking freq) - Z.to_nat (- N)) (ranking freq)))
  /\ (exists batch, call_analyzeMultipleArticles articles (Some N) = Normal batch).
Proof.
  split; [|eexists; reflexivity].
  exists (getTopWords freq (Some N)). split; [reflexivity|].
  rewrite getTopWords_slice. split; intros H.
  - rewrite slice0_nonneg by exact H. apply firstn_min_length.
  - now apply slice0_negative.
Qed.

Lemma counts_never_raise_witness :
  exists top,
    call_getTopWords [("fox", Num 2); ("runs", Num 1)] (Some (-1)%Z) = Normal top
    /\ top = [ {| Ranked.word := "fox"; Ranked.count := Num 2 |} ].
Proof.
  destruct (proj1 (counts_never_raise [("fox", Num 2); ("runs", Num 1)] [] (-1)))
    as [top [Hcall [_ Hneg]]].
  exists top. split; [exact Hcall|].
  rewrite Hneg by lia. reflexivity.
Defined.

(** C1, as the claim states it, fails: with the count -1 neither
    operation raises [InvalidArgument]; [getTopWords] answers with the
    ranking cut by one word. *)
Lemma negative_count_not_rejected :
  call_getTopWords [("fox", Num 2); ("runs", Num 1)] (Some (-1)%Z)
  = Normal [ {| Ranked.word := "fox"; Ranked.count := Num 2 |} ]
  /\ call_getTopWords [("fox", Num 2); ("runs", Num 1)] (Some (-1)%Z)
     <> Throw InvalidArgument
  /\ call_analyzeMultipleArticles [] (Some (-1)%Z) <> Throw InvalidArgument.
Proof. repeat split; discriminate. Qed.

(** ** Batches *)

Lemma articles_loop (l : list Article.t) (done : list Article.t)
    (tables : list object) :
  fold_left
    (fun '(articleAnalyses, allFrequencies) article =>
       let analysis := analyzeText (Some (text_or_empty article)) in
       let article := Article.set_analysis article analysis in
       (articleAnalyses ++ [article],
        allFrequencies ++ [Analysis.frequency analysis]))
    l (done, tables)
  = (done ++ map with_own_analysis l,
     tables ++ map (fun a => Analysis.frequency (own_analysis a)) l).
Proof.
  revert done tables. induction l as [|a l IH]; intros done tables; cbn [fold_left map].
  - now rewrite !app_nil_r.
  - rewrite IH, <- !app_assoc. reflexivity.
Qed.

Lemma analyzeMultipleArticles_unfold (articles : list Article.t)
    (topCount : option Z) :
  analyzeMultipleArticles articles topCount
  = let combined :=
      combineFrequencies
        (map (fun a => Analysis.frequency (own_analysis a)) articles) in
    {| Batch.articles := map with_own_analysis articles;
       Batch.combinedFrequency := combined;
       Batch.topWords :=
         getTopWords combined
           (Some (match topCount with Some n => n | None => 5%Z end));
       Batch.totalArticles := Z.of_nat (List.length articles) |}.
Proof.
  unfold analyzeMultipleArticles. rewrite articles_loop. reflexivity.
Qed.

Lemma own_analysis_no_text (article : Article.t) :
  falsy_string (Article.text article) = true ->
  own_analysis article = zero_analysis.
Proof.
  unfold own_analysis, text_or_empty. intros H.
  destruct (Article.text article) as [[|c s]|]; try discriminate; reflexivity.
Qed.

Lemma combineFrequencies_skip_empty (l1 l2 : list object) :
  combineFrequencies (l1 ++ [] :: l2) = combineFrequencies (l1 ++ l2).
Proof.
  unfold combineFrequencies. rewrite !fold_left_app. reflexivity.
Qed.

(** ** The report *)

Lemma append_assoc (a b c : string) : ((a ++ b) ++ c = a ++ (b ++ c))%string.
Proof. induction a as [|x a IH]; cbn; [reflexivity|now rewrite IH]. Qed.

Lemma append_empty_r (a : string) : (a ++ "" = a)%string.
Proof. induction a as [|x a IH]; cbn; [reflexivity|now rewrite IH]. Qed.

Lemma forEach_listing {A : Type} (f : string -> A -> Z -> string)
    (entry : nat -> A -> string) :
  (forall content x k,
      f content x (Z.of_nat k) = (content ++ entry (S k) x)%string) ->
  forall (l : list A) (k : nat) (content : string),
    forEach_from f (Z.of_nat k) l content
    = (content ++ listing entry (S k) l)%string.
Proof.
  intros Hf l. induction l as [|x l IH]; intros k content; cbn [forEach_from listing].
  - now rewrite append_empty_r.
  - replace (Z.of_nat k + 1)%Z with (Z.of_nat (S k)) by lia.
    now rewrite IH, Hf, append_assoc.
Qed.

Lemma string_or_shown (s : option string) (d : string) :
  string_or s d = match s with Some (String c s') => String c s' | _ => d end.
Proof. destruct s as [[|c s']|]; reflexivity. Qed.

Lemma words_or_zero_shown (article : Article.t) :
  words_or_zero article = words_shown article.
Proof.
  unfold words_or_zero, words_shown. destruct (Article.analysis article) as [a|];
    [|reflexivity].
  destruct (Analysis.totalWords a =? 0)%Z eqn:E; [|reflexivity].
  apply Z.eqb_eq in E. now rewrite E.
Qed.

Lemma listing_nth {A : Type} (entry : nat -> A -> string) (l : list A) :
  forall (first i : nat) (x : A),
    nth_error l i = Some x ->
    occurs_in (entry (first + i) x) (listing entry first l).
Proof.
  induction l as [|y l IH]; intros first i x H; [now destruct i|].
  destruct i as [|i]; cbn in H.
  - injection H as ->. exists ""%string, (listing entry (S first) l).
    now rewrite Nat.add_0_r.
  - destruct (IH (S first) i x H) as [b [a E]].
    exists (entry first y ++ b)%string, a.
    cbn [listing]. rewrite E, append_assoc.
    now replace (first + S i) with (S first + i) by lia.
Qed.

Lemma occurs_in_after (piece s before : string) :
  occurs_in piece s -> occurs_in piece (before ++ s)%string.
Proof.
  intros [b [a ->]]. exists (before ++ b)%string, a.
  now rewrite !append_assoc.
Qed.

Lemma occurs_in_before (piece s after : string) :
  occurs_in piece s -> occurs_in piece (s ++ after)%string.
Proof.
  intros [b [a ->]]. exists b, (a ++ after)%string.
  now rewrite !append_assoc.
Qed.

Ltac skip_to_listing entry :=
  repeat lazymatch goal with
    | |- occurs_in _ (listing entry _ _ ++ _)%string => fail
    | |- occurs_in _ (_ ++ _)%string => apply occurs_in_after
    end;
  apply occurs_in_before.

(** C9: the report consists of a header, the generation time, the
    number of articles, one entry per article of the batch in order
    (1-based position, title or "Unknown Title", url or "Unknown URL",
    word count of its analysis or 0 without one), then the given top
    words as a numbered list with their counts, and a footer; every
    article and every top word passed in occurs in it. *)
Theorem generateFileContent_layout (now : string) (topWords : list Ranked.t)
    (analysis : Batch.t) :
  generateFileContent now topWords analysis
  = ("Word Frequency Analysis Results" ++ nl
     ++ "===============================" ++ nl ++ nl
     ++ "Analysis Date: " ++ now ++ nl
     ++ "Articles Analyzed: "
     ++ Z_to_string (Z.of_nat (List.length (Batch.articles analysis))) ++ nl ++ nl
     ++ "Articles:" ++ nl
     ++ listing article_entry 1 (Batch.articles analysis)
     ++ "Top 5 Most Repeated Words Across All Articles:" ++ nl
     ++ "==============================================" ++ nl
     ++ listing word_entry 1 topWords
     ++ nl ++ nl ++ "Generated by Haci Arpaci" ++ nl)%string
  /\ (forall i article,
        nth_error (Batch.articles analysis) i = Some article ->
        occurs_in (article_entry (i + 1) article)
          (generateFileContent now topWords analysis))
  /\ (forall i item,
        nth_error topWords i = Some item ->
        occurs_in (word_entry (i + 1) item)
          (generateFileContent now topWords analysis)).
Proof.
  assert (E : generateFileContent now topWords analysis
    = ("Word Frequency Analysis Results" ++ nl
     ++ "===============================" ++ nl ++ nl
     ++ "Analysis Date: " ++ now ++ nl
     ++ "Articles Analyzed: "
     ++ Z_to_string (Z.of_nat (List.length (Batch.articles analysis))) ++ nl ++ nl
     ++ "Articles:" ++ nl
     ++ listing article_entry 1 (Batch.articles analysis)
     ++ "Top 5 Most Repeated Words Across All Articles:" ++ nl
     ++ "==============================================" ++ nl
     ++ listing word_entry 1 topWords
     ++ nl ++ nl ++ "Generated by Haci Arpaci" ++ nl)%string).
  { unfold generateFileContent, forEach. cbv zeta.
    rewrite (forEach_listing _ word_entry) with (k := 0%nat).
    - rewrite (forEach_listing _ article_entry) with (k := 0%nat).
      + now rewrite !append_assoc.
      + intros content x k. unfold article_entry. cbv beta zeta.
        rewrite !string_or_shown, words_or_zero_shown, !append_assoc.
        replace (Z.of_nat k + 1)%Z with (Z.of_nat (S k)) by lia. reflexivity.
    - intros content x k. unfold word_entry. cbv beta zeta.
      rewrite ?append_assoc.
      replace (Z.of_nat k + 1)%Z with (Z.of_nat (S k)) by lia. reflexivity. }
  split; [exact E|]. rewrite E. split.
  - intros i article H. rewrite Nat.add_comm.
    apply (listing_nth article_entry _ 1) in H.
    skip_to_listing (@article_entry). exact H.
  - intros i item H. rewrite Nat.add_comm.
    apply (listing_nth word_entry _ 1) in H.
    skip_to_listing (@word_entry). exact H.
Qed.

Lemma generateFileContent_layout_witness :
  let batch :=
    analyzeMultipleArticles
      [ extracted 1 "Foxes" "/blog/foxes" "The fox runs. The fox jumps!" "Ann" "May";
        extraction_failed 2 "/blog/gone" "Timeout 30000ms exceeded" ]
      (Some 5%Z) in
  occurs_in
    ("2. Article 2 (Error)" ++ nl ++ "   URL: /blog/gone" ++ nl
     ++ "   Words: 0" ++ nl ++ nl)%string
    (generateFileContent "2024-05-01T10:00:00.000Z" (Batch.topWords batch) batch).
Proof.
  intros batch.
  exact (proj1 (proj2 (generateFileContent_layout "2024-05-01T10:00:00.000Z"
                         (Batch.topWords batch) batch))
           1%nat
           (with_own_analysis (extraction_failed 2 "/blog/gone" "Timeout 30000ms exceeded"))
           eq_refl).
Defined.

(** ** Own properties after an assignment *)

Lemma own_get_update (o : object) (k : string) (v : prim) (k' : string) :
  own_get (own_update o k v) k'
  = if String.eqb k k'
    then match own_get o k with Some _ => Some v | None => None end
    else own_get o k'.
Proof.
  induction o as [|[k0 v0] o IH]; cbn [own_update own_get].
  - now destruct (String.eqb k k').
  - destruct (String.eqb k0 k) eqn:E0; cbn [own_get].
    + apply String.eqb_eq in E0. subst k0.
      now destruct (String.eqb k k').
    + rewrite IH. destruct (String.eqb k k') eqn:E; [|reflexivity].
      apply String.eqb_eq in E. subst k'. now rewrite E0.
Qed.

Lemma own_get_cons_new (o : object) (k : string) (v : prim) (k' : string) :
  own_get ((k, v) :: o) k' = if String.eqb k k' then Some v else own_get o k'.
Proof. reflexivity. Qed.

Lemma own_get_insert_index (i : N) (o : object) (k : string) (v : prim)
    (k' : string) :
  own_get o k = None ->
  own_get (insert_index i k v o) k'
  = if String.eqb k k' then Some v else own_get o k'.
Proof.
  induction o as [|[k0 v0] o IH]; intros Hnone; cbn [insert_index]; [reflexivity|].
  cbn [own_get] in Hnone. destruct (String.eqb k0 k) eqn:E0; [discriminate|].
  destruct (array_index k0) as [j|]; [|apply own_get_cons_new].
  destruct (j <? i)%N; [|apply own_get_cons_new].
  cbn [own_get]. rewrite (IH Hnone).
  destruct (String.eqb k k') eqn:E; [|reflexivity].
  apply String.eqb_eq in E. subst k'. now rewrite E0.
Qed.

Lemma own_get_app_new (o : object) (k : string) (v : prim) (k' : string) :
  own_get o k = None ->
  own_get (o ++ [(k, v)]) k'
  = if String.eqb k k' then Some v else own_get o k'.
Proof.
  induction o as [|[k0 v0] o IH]; intros Hnone; cbn [app own_get].
  - now destruct (String.eqb k k').
  - cbn [own_get] in Hnone. destruct (String.eqb k0 k) eqn:E0; [discriminate|].
    rewrite (IH Hnone).
    destruct (String.eqb k k') eqn:E; [|reflexivity].
    apply String.eqb_eq in E. subst k'. now rewrite E0.
Qed.

Lemma own_get_add (o : object) (k : string) (v : prim) (k' : string) :
  own_get o k = None ->
  own_get (own_add o k v) k'
  = if String.eqb k k' then Some v else own_get o k'.
Proof.
  intros Hnone. unfold own_add. destruct (array_index k).
  - now apply own_get_insert_index.
  - now apply own_get_app_new.
Qed.

Lemma own_get_None_keys (o : object) (k : string) :
  own_get o k = None <-> ~ In k (Object_keys o).
Proof.
  induction o as [|[k0 v0] o IH]; cbn [own_get Object_keys map fst In].
  - tauto.
  - destruct (String.eqb k0 k) eqn:E.
    + apply String.eqb_eq in E. split; [discriminate|tauto].
    + apply String.eqb_neq in E. fold (Object_keys o). tauto.
Qed.

(** ** Invariants of a table under an assignment *)

Section Assignment.
Context (P : string * prim -> Prop).

Lemma Forall_own_update (o : object) (k : string) (v : prim) :
  Forall P o -> P (k, v) -> Forall P (own_update o k v).
Proof.
  intros Ho Hk. induction Ho as [|[k0 v0] o H0 Ho IH]; cbn [own_update];
    [constructor|].
  destruct (String.eqb k0 k) eqn:E.
  - apply String.eqb_eq in E. subst k0. now constructor.
  - now constructor.
Qed.

Lemma Forall_insert_index (i : N) (o : object) (k : string) (v : prim) :
  Forall P o -> P (k, v) -> Forall P (insert_index i k v o).
Proof.
  intros Ho Hk. induction Ho as [|[k0 v0] o H0 Ho IH]; cbn [insert_index].
  - now constructor.
  - destruct (array_index k0) as [j|]; [destruct (j <? i)%N|];
      repeat (constructor; try assumption).
Qed.

Lemma Forall_own_add (o : object) (k : string) (v : prim) :
  Forall P o -> P (k, v) -> Forall P (own_add o k v).
Proof.
  intros Ho Hk. unfold own_add. destruct (array_index k).
  - now apply Forall_insert_index.
  - apply Forall_app. split; [exact Ho|now constructor].
Qed.

End Assignment.

Lemma keys_own_update (o : object) (k : string) (v : prim) :
  Object_keys (own_update o k v) = Object_keys o.
Proof.
  unfold Object_keys. induction o as [|[k0 v0] o IH]; cbn [own_update map];
    [reflexivity|].
  destruct (String.eqb k0 k); cbn [map fst]; [reflexivity|now rewrite IH].
Qed.

Lemma keys_insert_index (i : N) (o : object) (k : string) (v : prim) :
  Permutation (k :: Object_keys o) (Object_keys (insert_index i k v o)).
Proof.
  unfold Object_keys. induction o as [|[k0 v0] o IH]; cbn [insert_index map fst];
    [reflexivity|].
  destruct (array_index k0) as [j|]; [destruct (j <? i)%N|]; cbn [map fst];
    try reflexivity.
  rewrite perm_swap. now apply perm_skip.
Qed.

Lemma keys_own_add (o : object) (k : string) (v : prim) :
  Permutation (k :: Object_keys o) (Object_keys (own_add o k v)).
Proof.
  unfold own_add. destruct (array_index k).
  - apply keys_insert_index.
  - unfold Object_keys. rewrite map_app. cbn [map fst].
    apply Permutation_cons_append.
Qed.

Lemma sum_counts_update (o : object) (k : string) (x n : Z) :
  own_get o k = Some (Num x) ->
  sum_counts (own_update o k (Num n)) = (sum_counts o - x + n)%Z.
Proof.
  induction o as [|[k0 v0] o IH]; cbn [own_get own_update]; [discriminate|].
  destruct (String.eqb k0 k).
  - intros [= ->]. cbn [sum_counts]. lia.
  - intros H. cbn [sum_counts]. rewrite (IH H). destruct v0; lia.
Qed.

Lemma sum_counts_insert_index (i : N) (o : object) (k : string) (n : Z) :
  sum_counts (insert_index i k (Num n) o) = (sum_counts o + n)%Z.
Proof.
  induction o as [|[k0 v0] o IH]; cbn [insert_index sum_counts]; [lia|].
  destruct (array_index k0) as [j|]; [destruct (j <? i)%N|]; cbn [sum_counts];
    destruct v0; lia.
Qed.

Lemma sum_counts_app (o1 o2 : object) :
  sum_counts (o1 ++ o2) = (sum_counts o1 + sum_counts o2)%Z.
Proof.
  induction o1 as [|[k0 v0] o1 IH]; cbn [app sum_counts]; [lia|].
  rewrite IH. destruct v0; lia.
Qed.

Lemma sum_counts_add (o : object) (k : string) (n : Z) :
  sum_counts (own_add o k (Num n)) = (sum_counts o + n)%Z.
Proof.
  unfold own_add. destruct (array_index k).
  - apply sum_counts_insert_index.
  - rewrite sum_counts_app. cbn [sum_counts]. lia.
Qed.

(** ** Counting words that [Object.prototype] does not know *)

Lemma positive_own_get (o : object) (k : string) (p : prim) :
  positive_counts o -> own_get o k = Some p -> exists n, p = Num n /\ (1 <= n)%Z.
Proof.
  intros Ho. induction Ho as [|[k0 v0] o H0 Ho IH]; cbn [own_get]; [discriminate|].
  destruct (String.eqb k0 k); [|exact IH].
  intros [= <-]. exact H0.
Qed.

Lemma plain_own_get (o : object) (k : string) :
  plain_keys o -> in_Object_prototype k = true -> own_get o k = None.
Proof.
  intros Ho Hk. induction Ho as [|[k0 v0] o H0 Ho IH]; cbn [own_get]; [reflexivity|].
  destruct (String.eqb k0 k) eqn:E; [|exact IH].
  apply String.eqb_eq in E. subst k0. cbn [fst] in H0. congruence.
Qed.

Lemma bump_plain (o : object) (w : string) (n : Z) :
  sound_table o -> in_Object_prototype w = false -> (1 <= n)%Z ->
  sound_table (bump o w (Num n))
  /\ (forall w', own_get (bump o w (Num n)) w'
                 = if String.eqb w w' then Some (Num (count_in o w + n))
                   else own_get o w')
  /\ sum_counts (bump o w (Num n)) = (sum_counts o + n)%Z.
Proof.
  intros (Hpos & Hplain & Hwf) Hw Hn.
  assert (Hproto : String.eqb w "__proto__" = false).
  { destruct (String.eqb w "__proto__") eqn:E; [|reflexivity].
    apply String.eqb_eq in E. subst w. discriminate. }
  unfold bump, obj_get, obj_set, count_in.
  destruct (own_get o w) as [p|] eqn:Eo.
  - destruct (positive_own_get o w p Hpos Eo) as [x [-> Hx]].
    assert (Ex : (x =? 0)%Z = false) by (apply Z.eqb_neq; lia).
    cbn [js_or truthy]. rewrite Ex. cbn [negb js_add].
    repeat split.
    + apply Forall_own_update; [exact Hpos|]. exists (x + n)%Z. split; [reflexivity|lia].
    + apply Forall_own_update; [exact Hplain|exact Hw].
    + unfold well_formed. now rewrite keys_own_update.
    + intros w'. rewrite own_get_update, Eo. reflexivity.
    + rewrite (sum_counts_update o w x _ Eo). lia.
  - rewrite Hw, Hproto. cbn [js_or js_add]. repeat split.
    + apply Forall_own_add; [exact Hpos|]. exists (0 + n)%Z. split; [reflexivity|lia].
    + apply Forall_own_add; [exact Hplain|exact Hw].
    + unfold well_formed.
      apply (Permutation_NoDup (keys_own_add o w (Num (0 + n)))).
      constructor; [now apply own_get_None_keys|exact Hwf].
    + intros w'. now rewrite (own_get_add o w _ w' Eo).
    + rewrite sum_counts_add. lia.
Qed.

Lemma bump_proto (o : object) (c : prim) :
  own_get o "__proto__" = None -> bump o "__proto__" c = o.
Proof. intros H. unfold bump, obj_set. now rewrite H. Qed.

Lemma countWordFrequency_bump (words : list string) :
  countWordFrequency words = fold_left (fun f w => bump f w (Num 1)) words [].
Proof. reflexivity. Qed.

(** The words that count: all but "__proto__". *)
Lemma count_loop (words : list string) (o : object) :
  sound_table o ->
  (forall w, In w words -> in_Object_prototype w = true -> w = "__proto__") ->
  sound_table (fold_left (fun f w => bump f w (Num 1)) words o)
  /\ sum_counts (fold_left (fun f w => bump f w (Num 1)) words o)
     = (sum_counts o
        + Z.of_nat (List.length
                      (filter (fun w => negb (String.eqb w "__proto__")) words)))%Z.
Proof.
  revert o. induction words as [|w words IH]; intros o Ho Hw; cbn [fold_left filter].
  - split; [exact Ho|cbn; lia].
  - assert (Hrest : forall w', In w' words -> in_Object_prototype w' = true ->
                               w' = "__proto__") by (intros; apply Hw; [now right|assumption]).
    destruct (in_Object_prototype w) eqn:Ew.
    + rewrite (Hw w (or_introl eq_refl) Ew).
      rewrite bump_proto by (apply plain_own_get; [apply Ho|reflexivity]).
      cbn [String.eqb Ascii.eqb Bool.eqb andb negb]. now apply IH.
    + assert (Hp : String.eqb w "__proto__" = false).
      { destruct (String.eqb w "__proto__") eqn:E; [|reflexivity].
        apply String.eqb_eq in E. subst w. discriminate. }
      rewrite Hp. cbn [negb List.length].
      destruct (bump_plain o w 1 Ho Ew) as (Hs & _ & Hsum); [lia|].
      destruct (IH _ Hs Hrest) as [Hs' Hsum'].
      split; [exact Hs'|]. rewrite Hsum', Hsum. lia.
Qed.

Lemma sound_empty : sound_table [].
Proof. repeat split; constructor. Qed.

(** ** Tokens are lower-case *)

Lemma tokens_lowword (s : string) :
  forall (b b' : bool) (t : string),
    tidy b s -> In t (split_runs_from is_space b' s) -> all_chars lowword t = true.
Proof.
  induction s as [|c s IH]; intros b b' t Ht Hin; cbn [split_runs_from] in Hin.
  - destruct Hin as [<-|[]]. reflexivity.
  - cbn [tidy] in Ht. destruct (Ascii.eqb c " ") eqn:E.
    + destruct Ht as [_ Ht]. rewrite (eqb_space_is_space c E) in Hin.
      destruct b'; [now apply (IH true true)|].
      destruct Hin as [<-|Hin]; [reflexivity|now apply (IH true true)].
    + destruct Ht as [Hc Ht]. rewrite (lowword_not_space c Hc) in Hin.
      destruct (split_runs_from is_space false s) as [|t0 ts] eqn:Es.
      * destruct Hin as [<-|[]]. cbn. now rewrite Hc.
      * destruct Hin as [<-|Hin].
        -- cbn [all_chars]. rewrite Hc. cbn [andb].
           apply (IH false false); [exact Ht|]. rewrite Es. now left.
        -- apply (IH false false); [exact Ht|]. rewrite Es. now right.
Qed.

Lemma extractWords_lowword (text : option string) (w : string) :
  In w (extractWords text) -> all_chars lowword w = true.
Proof.
  rewrite extractWords_significant. intros H. apply filter_In in H.
  destruct H as [H _].
  destruct (cleanText_normalized text) as [Ht _].
  exact (tokens_lowword _ true false w Ht H).
Qed.

Lemma lowword_prototype_name (w : string) :
  all_chars lowword w = true -> in_Object_prototype w = true ->
  w = "constructor" \/ w = "__proto__".
Proof.
  intros Hl Hp. unfold in_Object_prototype, Object_prototype_names in Hp.
  cbn [existsb] in Hp.
  repeat (apply orb_prop in Hp; destruct Hp as [Hp|Hp]);
    try discriminate;
    apply String.eqb_eq in Hp; subst w;
    solve [now left | now right | discriminate Hl].
Qed.

Lemma extractWords_prototype_name (text : option string) (w : string) :
  In w (extractWords text) -> in_Object_prototype w = true ->
  w = "constructor" \/ w = "__proto__".
Proof.
  intros Hin. apply lowword_prototype_name. exact (extractWords_lowword text w Hin).
Qed.

(** ** Consistency of an analysis without such words *)

Lemma filter_all {A : Type} (f : A -> bool) (l : list A) :
  (forall x, In x l -> f x = true) -> filter f l = l.
Proof.
  induction l as [|x l IH]; intros H; cbn [filter]; [reflexivity|].
  rewrite (H x (or_introl eq_refl)). f_equal. apply IH.
  intros y Hy. apply H. now right.
Qed.

Lemma getTopWords_length (freq : object) (N : Z) :
  (0 <= N)%Z ->
  Z.of_nat (List.length (getTopWords freq (Some N)))
  = Z.min N (Z.of_nat (List.length (Object_keys freq))).
Proof.
  intros HN. rewrite getTopWords_slice, (slice0_nonneg _ N HN).
  rewrite length_firstn, ranking_length. lia.
Qed.

Lemma countWordFrequency_sound (text : option string) :
  ~ In "constructor" (extractWords text) ->
  sound_table (countWordFrequency (extractWords text))
  /\ sum_counts (countWordFrequency (extractWords text))
     = Z.of_nat (List.length
                   (filter (fun w => negb (String.eqb w "__proto__"))
                      (extractWords text))).
Proof.
  intros Hc. rewrite countWordFrequency_bump.
  destruct (count_loop (extractWords text) [] sound_empty) as [Hs Hsum].
  - intros w Hin Hp.
    destruct (extractWords_prototype_name text w Hin Hp) as [-> | ->];
      [contradiction|reflexivity].
  - split; [exact Hs|]. rewrite Hsum. cbn [sum_counts]. lia.
Qed.

(** X11: apart from the words "constructor" and "__proto__" the analysis
    of a text is consistent: the total is the sum of the counts, the number of
    unique words is the number of distinct keys, every count is a number
    that is at least 1, and there are [min 5 uniqueWords] top words. *)
Theorem analyzeText_consistent (text : option string) :
  ~ In "constructor" (extractWords text) ->
  ~ In "__proto__" (extractWords text) ->
  Analysis.totalWords (analyzeText text)
  = sum_counts (Analysis.frequency (analyzeText text))
  /\ Analysis.uniqueWords (analyzeText text)
     = Z.of_nat (distinct_words (Analysis.frequency (analyzeText text)))
  /\ positive_counts (Analysis.frequency (analyzeText text))
  /\ Z.of_nat (List.length (Analysis.topWords (analyzeText text)))
     = Z.min 5 (Analysis.uniqueWords (analyzeText text)).
Proof.
  intros Hc Hp.
  destruct (countWordFrequency_sound text Hc) as [(Hpos & Hplain & Hwf) Hsum].
  unfold analyzeText. cbn [Analysis.totalWords Analysis.uniqueWords
    Analysis.frequency Analysis.topWords].
  repeat split.
  - rewrite Hsum, filter_all; [reflexivity|].
    intros w Hin. destruct (String.eqb w "__proto__") eqn:E; [|reflexivity].
    apply String.eqb_eq in E. subst w. contradiction.
  - unfold distinct_words. now rewrite (nodup_fixed_point string_dec Hwf).
  - exact Hpos.
  - change (getTopWords ?f None) with (getTopWords f (Some 5%Z)).
    apply getTopWords_length. lia.
Qed.

Lemma analyzeText_consistent_witness :
  Analysis.totalWords (analyzeText (Some "The Quick, quick fox jumps! The fox runs."))
  = sum_counts
      (Analysis.frequency (analyzeText (Some "The Quick, quick fox jumps! The fox runs."))).
Proof.
  apply (analyzeText_consistent (Some "The Quick, quick fox jumps! The fox runs."));
    vm_compute; intuition discriminate.
Defined.

(** ** Conservation without such words *)

Lemma count_in_bump (o : object) (w : string) (n : Z) (w' : string) :
  sound_table o -> in_Object_prototype w = false -> (1 <= n)%Z ->
  count_in (bump o w (Num n)) w'
  = (if String.eqb w w' then count_in o w + n else count_in o w')%Z
  /\ has_word (bump o w (Num n)) w' = (String.eqb w w' || has_word o w').
Proof.
  intros Ho Hw Hn. destruct (bump_plain o w n Ho Hw Hn) as (_ & Hget & _).
  unfold count_in, has_word. rewrite (Hget w').
  now destruct (String.eqb w w').
Qed.

Lemma count_in_cons (k : string) (v : prim) (l : object) (w : string) :
  count_in ((k, v) :: l) w
  = if String.eqb k w then match v with Num n => n | _ => 0%Z end
    else count_in l w.
Proof. unfold count_in. cbn [own_get]. now destruct (String.eqb k w). Qed.

Lemma has_word_cons (k : string) (v : prim) (l : object) (w : string) :
  has_word ((k, v) :: l) w = (String.eqb k w || has_word l w).
Proof. unfold has_word. cbn [own_get]. now destruct (String.eqb k w). Qed.

Lemma merge_loop (l : object) :
  forall c : object,
    sound_table c -> sound_table l ->
    sound_table
      (fold_left (fun combined '(word, count) => bump combined word count) l c)
    /\ forall w,
         count_in
           (fold_left (fun combined '(word, count) => bump combined word count) l c) w
         = (count_in c w + count_in l w)%Z
         /\ has_word
              (fold_left (fun combined '(word, count) => bump combined word count) l c) w
            = (has_word c w || has_word l w).
Proof.
  induction l as [|[k v] l IH]; intros c Hc (Hpos & Hplain & Hwf); cbn [fold_left].
  - split; [exact Hc|]. intros w. unfold count_in, has_word. cbn [own_get].
    rewrite orb_false_r. split; [lia|reflexivity].
  - inversion Hpos as [|? ? [n [Hv Hn]] Hpos']; subst. cbn [snd] in Hv. subst v.
    inversion Hplain as [|? ? Hk Hplain']; subst. cbn [fst] in Hk.
    unfold well_formed in Hwf. cbn [Object_keys map fst] in Hwf.
    apply NoDup_cons_iff in Hwf. destruct Hwf as [Hnotin Hwf'].
    destruct (bump_plain c k n Hc Hk Hn) as (Hc1 & _ & _).
    destruct (IH _ Hc1 (conj Hpos' (conj Hplain' Hwf'))) as [Hs Hw].
    split; [exact Hs|]. intros w. destruct (Hw w) as [Hcount Hhas].
    destruct (count_in_bump c k n w Hc Hk Hn) as [Hc1count Hc1has].
    rewrite Hcount, Hhas, Hc1count, Hc1has.
    rewrite (count_in_cons k (Num n) l w), (has_word_cons k (Num n) l w).
    destruct (String.eqb k w) eqn:E; cbn [orb].
    + apply String.eqb_eq in E. subst w.
      apply own_get_None_keys in Hnotin.
      assert (H0 : count_in l k = 0%Z) by (unfold count_in; now rewrite Hnotin).
      rewrite H0. split; [lia|]. now rewrite orb_true_r.
    + split; reflexivity.
Qed.

Lemma combine_loop (tables : list object) :
  forall c : object,
    sound_table c -> Forall sound_table tables ->
    sound_table
      (fold_left
         (fun combined freq =>
            fold_left (fun combined '(word, count) => bump combined word count)
              (Object_entries freq) combined)
         tables c)
    /\ forall w,
         count_in
           (fold_left
              (fun combined freq =>
                 fold_left (fun combined '(word, count) => bump combined word count)
                   (Object_entries freq) combined)
              tables c) w
         = (count_in c w + total_count tables w)%Z
         /\ has_word
              (fold_left
                 (fun combined freq =>
                    fold_left (fun combined '(word, count) => bump combined word count)
                      (Object_entries freq) combined)
                 tables c) w
            = (has_word c w || existsb (fun t => has_word t w) tables).
Proof.
  unfold Object_entries.
  induction tables as [|t tables IH]; intros c Hc Ht; cbn [fold_left].
  - split; [exact Hc|]. intros w. cbn [total_count existsb].
    rewrite orb_false_r. split; [lia|reflexivity].
  - inversion Ht as [|? ? Ht1 Ht']; subst.
    destruct (merge_loop t c Hc Ht1) as [Hc1 Hw1].
    destruct (IH _ Hc1 Ht') as [Hs Hw].
    split; [exact Hs|]. intros w. destruct (Hw w) as [Hcount Hhas].
    destruct (Hw1 w) as [Hcount1 Hhas1].
    rewrite Hcount, Hhas, Hcount1, Hhas1. cbn [total_count existsb].
    rewrite orb_assoc. split; [lia|reflexivity].
Qed.

Lemma combineFrequencies_bump (tables : list object) :
  combineFrequencies tables
  = fold_left
      (fun combined freq =>
         fold_left (fun combined '(word, count) => bump combined word count)
           (Object_entries freq) combined)
      tables [].
Proof. reflexivity. Qed.

(** On tables that are sound, [combineFrequencies] adds up: the combined
    table has exactly the words of the tables, each with the sum of its
    counts. *)
Theorem combineFrequencies_sums (tables : list object) (w : string) :
  Forall sound_table tables ->
  sound_table (combineFrequencies tables)
  /\ own_get (combineFrequencies tables) w
     = if existsb (fun t => has_word t w) tables
       then Some (Num (total_count tables w))
       else None.
Proof.
  intros Ht. rewrite combineFrequencies_bump.
  destruct (combine_loop tables [] sound_empty Ht) as [Hs Hw].
  split; [exact Hs|]. destruct (Hw w) as [Hcount Hhas].
  change (count_in [] w) with 0%Z in Hcount.
  change (has_word [] w) with false in Hhas. cbn [orb] in Hhas.
  rewrite <- Hhas. unfold has_word. unfold count_in in Hcount.
  destruct (own_get _ w) as [p|] eqn:E; [|reflexivity].
  destruct (positive_own_get _ w p (proj1 Hs) E) as [n [-> _]].
  f_equal. f_equal. lia.
Qed.

Lemma combineFrequencies_sums_witness :
  own_get (combineFrequencies [[("fox", Num 2); ("runs", Num 1)]; [("fox", Num 1)]]) "fox"
  = Some (Num 3).
Proof.
  apply (combineFrequencies_sums [[("fox", Num 2); ("runs", Num 1)]; [("fox", Num 1)]] "fox").
  repeat constructor; cbn; try (eexists; split; [reflexivity|lia]);
    intuition discriminate.
Defined.

Lemma existsb_over_map {A B : Type} (f : B -> bool) (g : A -> B) (l : list A) :
  existsb f (map g l) = existsb (fun a => f (g a)) l.
Proof. induction l as [|a l IH]; cbn [map existsb]; [reflexivity|now rewrite IH]. Qed.

(** X12: for a batch in which no document contains the word
    "constructor", the combined table holds, for every word of some
    document, the sum of
    the documents' counts of that word (0 for a document without it), and
    it holds no other word. *)
Theorem combinedFrequency_conservation (articles : list Article.t)
    (topCount : option Z) (w : string) :
  (forall a, In a articles ->
             ~ In "constructor" (extractWords (Some (text_or_empty a)))) ->
  own_get (Batch.combinedFrequency (analyzeMultipleArticles articles topCount)) w
  = if existsb (fun a => has_word (Analysis.frequency (own_analysis a)) w) articles
    then Some (Num (total_count
                      (map (fun a => Analysis.frequency (own_analysis a)) articles) w))
    else None.
Proof.
  intros Hc. rewrite analyzeMultipleArticles_unfold. cbn [Batch.combinedFrequency].
  rewrite <- (existsb_over_map (fun t => has_word t w)
                (fun a => Analysis.frequency (own_analysis a))).
  apply combineFrequencies_sums.
  apply Forall_map, Forall_forall. intros a Ha.
  exact (proj1 (countWordFrequency_sound _ (Hc a Ha))).
Qed.

Lemma combinedFrequency_conservation_witness :
  let first := extracted 1 "Foxes" "/blog/foxes" "The fox runs. The fox jumps!" "Ann" "May" in
  let second := extraction_failed 2 "/blog/gone" "Timeout 30000ms exceeded" in
  let third := extracted 3 "Dogs" "/blog/dogs" "A lazy dog sleeps; the fox runs." "Bob" "June" in
  own_get
    (Batch.combinedFrequency (analyzeMultipleArticles [first; second; third] None))
    "fox"
  = Some (Num 3).
Proof.
  intros first second third.
  apply (combinedFrequency_conservation [first; second; third] None "fox").
  intros a [<-|[<-|[<-|[]]]]; vm_compute; intuition discriminate.
Defined.

(** ** Words that name a property of [Object.prototype]

    A read [frequency[word]] of a word that is no own property falls
    through to [Object.prototype].  For the word "constructor" it finds
    the function [Object], which is truthy, so [(frequency[word] || 0) + 1]
    is a string; for "__proto__" the assignment reaches the setter of
    [Object.prototype], which ignores the string, and no entry is made. *)

(** C10: the result of [analyzeText] is not consistent on every text.
    On the text "__proto__" it reports one word in total while its table
    is empty (no unique words, counts summing to 0); on the text
    "constructor" the count it stores is the string
    "function Object() { [native code] }1", not a number that is at
    least 1. *)
Theorem analyzeText_inherited_names :
  analyzeText (Some "__proto__")
  = {| Analysis.totalWords := 1; Analysis.uniqueWords := 0;
       Analysis.frequency := []; Analysis.topWords := [] |}
  /\ Analysis.totalWords (analyzeText (Some "__proto__"))
     <> sum_counts (Analysis.frequency (analyzeText (Some "__proto__")))
  /\ Analysis.frequency (analyzeText (Some "constructor"))
     = [("constructor", Text "" "constructor" "1")]
  /\ prim_to_string (Text "" "constructor" "1")
     = "function Object() { [native code] }1"
  /\ ~ positive_counts (Analysis.frequency (analyzeText (Some "constructor"))).
Proof.
  repeat split; try discriminate.
  intros H. vm_compute in H. inversion H as [|? ? [n [Hn _]] _]. discriminate.
Qed.

(** C2: the combined table is not the sum of the tables of the documents
    for every batch.  For the batch of one document with the text
    "constructor", the table of the document holds the string
    "function Object() { [native code] }1" for that word and the combined
    table holds
    "function Object() { [native code] }function Object() { [native code] }1":
    neither is a number, and the two differ. *)
Theorem combinedFrequency_inherited_name :
  let document :=
    extracted 1 "Classes" "/blog/classes" "constructor" "Ann" "May" in
  let batch := analyzeMultipleArticles [document] (Some 5%Z) in
  own_get (Analysis.frequency (own_analysis document)) "constructor"
  = Some (Text "" "constructor" "1")
  /\ own_get (Batch.combinedFrequency batch) "constructor"
     = Some (Text "" "constructor" "function Object() { [native code] }1")
  /\ prim_to_string (Text "" "constructor" "function Object() { [native code] }1")
     = "function Object() { [native code] }function Object() { [native code] }1"
  /\ own_get (Batch.combinedFrequency batch) "constructor"
     <> Some (Num (total_count [Analysis.frequency (own_analysis document)]
                     "constructor")).
Proof. cbv zeta. repeat split. discriminate. Qed.

(** ** Splitting, step by step *)

Section Split.
Context (class : ascii -> bool).

Lemma split_cons (c : ascii) (s : string) (b : bool) :
  split_runs_from class b (String c s)
  = split_step class c b (split_runs_from class (class c) s).
Proof. unfold split_step. cbn [split_runs_from]. now destruct (class c), b. Qed.

Lemma split_not_nil (s : string) (b : bool) : split_runs_from class b s <> [].
Proof.
  revert b. induction s as [|c s IH]; intros b; [discriminate|].
  rewrite split_cons. unfold split_step, cons_first.
  destruct (class c).
  - destruct b; [apply IH|discriminate].
  - now destruct (split_runs_from class false s).
Qed.

Lemma split_step_app (c : ascii) (b : bool) (L e : list string) :
  L <> [] -> split_step class c b (L ++ e) = split_step class c b L ++ e.
Proof.
  intros HL. unfold split_step, cons_first.
  destruct (class c); [now destruct b|].
  destruct L; [contradiction|reflexivity].
Qed.

Lemma nonempty_app_blanks (l e : list string) :
  Forall (fun t => t = EmptyString) e ->
  filter nonempty (l ++ e) = filter nonempty l.
Proof.
  intros He. rewrite filter_app.
  assert (E : filter nonempty e = []).
  { induction He as [|t e Ht He IH]; [reflexivity|]. subst t. exact IH. }
  now rewrite E, app_nil_r.
Qed.

Lemma split_flag (s : string) :
  filter nonempty (split_runs_from class true s)
  = filter nonempty (split_runs_from class false s).
Proof.
  destruct s as [|c s]; [reflexivity|].
  rewrite !split_cons. unfold split_step. now destruct (class c).
Qed.

Lemma split_any_flag (s : string) (b : bool) :
  filter nonempty (split_runs_from class b s)
  = filter nonempty (split_runs class s).
Proof. destruct b; [apply split_flag|reflexivity]. Qed.

Hypothesis spaces_separate : forall c, is_space c = true -> class c = true.

Lemma split_trimStart (s : string) (b : bool) :
  filter nonempty (split_runs_from class b (trimStart s))
  = filter nonempty (split_runs_from class b s).
Proof.
  revert b. induction s as [|c s IH]; intros b; [reflexivity|].
  cbn [trimStart]. destruct (is_space c) eqn:Hs; [|reflexivity].
  rewrite IH, split_cons. unfold split_step. rewrite (spaces_separate c Hs).
  destruct b; cbn [filter nonempty]; [reflexivity|symmetry; apply split_flag].
Qed.

Lemma split_trimEnd (s : string) :
  forall b, exists e,
    Forall (fun t => t = EmptyString) e
    /\ split_runs_from class b s = split_runs_from class b (trimEnd s) ++ e.
Proof.
  induction s as [|c s IH]; intros b.
  - exists []. split; [constructor|reflexivity].
  - destruct (IH (class c)) as [e [He E]].
    rewrite split_cons, E, trimEnd_cons.
    destruct (trimEnd s) as [|d r] eqn:Er.
    + destruct (is_space c) eqn:Hs.
      * unfold split_step. rewrite (spaces_separate c Hs).
        cbn [split_runs_from app]. destruct b.
        -- exists e. now split.
        -- exists (EmptyString :: e). split; [now constructor|reflexivity].
      * exists e. split; [exact He|].
        rewrite split_step_app by discriminate.
        now rewrite (split_cons c EmptyString b).
    + exists e. split; [exact He|].
      rewrite split_step_app by apply split_not_nil.
      now rewrite (split_cons c (String d r) b).
Qed.

Lemma split_trim (s : string) :
  filter nonempty (split_runs class (trim s))
  = filter nonempty (split_runs class s).
Proof.
  unfold split_runs, trim.
  destruct (split_trimEnd (trimStart s) false) as [e [He E]].
  rewrite <- (split_trimStart s false), E.
  now rewrite nonempty_app_blanks.
Qed.

End Split.

(** ** The words of a text *)

Lemma word_not_space (c : ascii) : is_word c = true -> is_space c = false.
Proof. each_char c. Qed.

Lemma space_is_nonword (c : ascii) : is_space c = true -> nonword c = true.
Proof. each_char c. Qed.

Lemma lower_char_word (c : ascii) : is_word (lower_char c) = is_word c.
Proof. each_char c. Qed.

Lemma lower_char_space (c : ascii) : is_space (lower_char c) = is_space c.
Proof. each_char c. Qed.

Lemma lower_char_idempotent (c : ascii) : lower_char (lower_char c) = lower_char c.
Proof. each_char c. Qed.

Lemma split_collapse (s : string) (b : bool) :
  split_runs_from is_space b (replace_runs_from is_space " " b s)
  = split_runs_from is_space b s.
Proof.
  revert b. induction s as [|c s IH]; intros b; [reflexivity|].
  cbn [replace_runs_from]. destruct (is_space c) eqn:Hs.
  - rewrite (split_cons is_space c s b). unfold split_step. rewrite Hs.
    destruct b; [apply IH|].
    rewrite split_cons. unfold split_step. cbn [is_space]. now rewrite IH.
  - rewrite !split_cons. rewrite Hs. f_equal. apply IH.
Qed.

Lemma punct_char (c : ascii) :
  let r := if negb (is_word c || is_space c) then " "%char else c in
  is_space r = nonword c /\ (nonword c = false -> r = c).
Proof.
  destruct c as [[] [] [] [] [] [] [] []]; vm_compute; split;
    first [reflexivity | intros H; first [reflexivity | discriminate H]].
Qed.

Lemma split_punct (s : string) (b : bool) :
  split_runs_from is_space b
    (replace_each (fun c => negb (is_word c || is_space c)) " " s)
  = split_runs_from nonword b s.
Proof.
  revert b. induction s as [|c s IH]; intros b; [reflexivity|].
  cbn [replace_each]. destruct (punct_char c) as [Hr Hc]. cbv zeta in Hr, Hc.
  rewrite !split_cons. unfold split_step. rewrite Hr, !IH.
  destruct (nonword c); [reflexivity|]. now rewrite Hc.
Qed.

Lemma filter_implied {A : Type} (f g : A -> bool) (l : list A) :
  (forall x, f x = true -> g x = true) -> filter f (filter g l) = filter f l.
Proof.
  intros H. induction l as [|x l IH]; [reflexivity|].
  cbn [filter]. destruct (g x) eqn:Eg; cbn [filter].
  - now rewrite IH.
  - destruct (f x) eqn:Ef; [|exact IH].
    rewrite (H x Ef) in Eg. discriminate.
Qed.

Lemma significant_nonempty (t : string) : significant t = true -> nonempty t = true.
Proof. destruct t; [discriminate|reflexivity]. Qed.

Lemma extractWords_runs (s : string) :
  extractWords (Some s) = filter significant (word_runs s).
Proof.
  rewrite extractWords_significant. unfold word_runs.
  rewrite (filter_implied _ _ _ significant_nonempty).
  destruct s as [|c s]; [reflexivity|].
  unfold cleanText. cbn [falsy_string].
  rewrite <- (filter_implied significant nonempty _ significant_nonempty).
  rewrite (split_trim is_space (fun c => fun H => H)).
  rewrite (filter_implied _ _ _ significant_nonempty).
  unfold split_runs, replace_runs. now rewrite split_collapse, split_punct.
Qed.

(** X1: the words [extractWords] returns are exactly the maximal runs of
    word characters ([A-Za-z0-9_]) of the lower-cased text that are at
    least 3 characters long, are no stop words and are not numbers, in
    the order of the text; a missing text has no words. *)
Theorem extractWords_are_word_runs :
  (forall s : string, extractWords (Some s) = filter significant (word_runs s))
  /\ extractWords None = [].
Proof. split; [exact extractWords_runs|reflexivity]. Qed.

(** ** Text put together from pieces *)

Lemma toLowerCase_app (a b : string) :
  toLowerCase (a ++ b) = (toLowerCase a ++ toLowerCase b)%string.
Proof. induction a as [|c a IH]; cbn; [reflexivity|now rewrite IH]. Qed.

Section Pieces.
Context (class : ascii -> bool) (sep : ascii) (rest : string).
Hypothesis sep_separates : class sep = true.

Lemma split_app_sep (a : string) :
  (forall b,
      filter nonempty (split_runs_from class b (a ++ String sep rest))
      = filter nonempty (split_runs_from class b a)
        ++ filter nonempty (split_runs_from class true rest))
  /\ hd EmptyString (split_runs_from class false (a ++ String sep rest))
     = hd EmptyString (split_runs_from class false a)
  /\ filter nonempty (tl (split_runs_from class false (a ++ String sep rest)))
     = filter nonempty (tl (split_runs_from class false a))
       ++ filter nonempty (split_runs_from class true rest).
Proof.
  induction a as [|c a (IHall & IHhd & IHtl)]; cbn [String.append].
  - repeat split.
    + intros b. rewrite split_cons. unfold split_step. rewrite sep_separates.
      now destruct b.
    + rewrite split_cons. unfold split_step. now rewrite sep_separates.
    + rewrite split_cons. unfold split_step. now rewrite sep_separates.
  - assert (Hstep : forall b,
        filter nonempty (split_runs_from class b (String c (a ++ String sep rest)))
        = filter nonempty (split_runs_from class b (String c a))
          ++ filter nonempty (split_runs_from class true rest)
        /\ (b = false ->
            hd EmptyString (split_runs_from class b (String c (a ++ String sep rest)))
            = hd EmptyString (split_runs_from class b (String c a))
            /\ filter nonempty
                 (tl (split_runs_from class b (String c (a ++ String sep rest))))
               = filter nonempty (tl (split_runs_from class b (String c a)))
                 ++ filter nonempty (split_runs_from class true rest))).
    { intros b. rewrite !split_cons. unfold split_step.
      destruct (class c) eqn:Hc.
      - destruct b; cbn [filter nonempty hd tl].
        + split; [apply IHall|discriminate].
        + split; [apply IHall|]. intros _. split; [reflexivity|apply IHall].
      - pose proof (split_not_nil class (a ++ String sep rest) false) as Hn1.
        pose proof (split_not_nil class a false) as Hn2.
        destruct (split_runs_from class false (a ++ String sep rest)) as [|h1 T1];
          [contradiction|].
        destruct (split_runs_from class false a) as [|h2 T2]; [contradiction|].
        cbn [hd tl] in IHhd, IHtl. subst h2.
        cbn [cons_first filter nonempty hd tl app]. rewrite IHtl.
        split; [reflexivity|]. intros _. now split. }
    repeat split.
    + intros b. apply Hstep.
    + apply (Hstep false). reflexivity.
    + apply (Hstep false). reflexivity.
Qed.

End Pieces.

Lemma word_runs_app_sep (a b : string) (sep : ascii) :
  is_word (lower_char sep) = false ->
  word_runs (a ++ String sep b)%string = word_runs a ++ word_runs b.
Proof.
  intros Hsep. unfold word_runs, split_runs.
  rewrite toLowerCase_app. cbn [toLowerCase].
  assert (Hn : nonword (lower_char sep) = true) by (unfold nonword; now rewrite Hsep).
  rewrite (proj1 (split_app_sep nonword (lower_char sep) (toLowerCase b) Hn
                    (toLowerCase a)) false).
  now rewrite split_flag.
Qed.

(** X2: the words of two texts put together with a separating character
    that is no word character are the words of the first followed by the
    words of the second, and the totals add up. *)
Theorem extractWords_app_sep (a b : string) (sep : ascii) :
  is_word (lower_char sep) = false ->
  extractWords (Some (a ++ String sep b)%string)
  = extractWords (Some a) ++ extractWords (Some b)
  /\ Analysis.totalWords (analyzeText (Some (a ++ String sep b)%string))
     = (Analysis.totalWords (analyzeText (Some a))
        + Analysis.totalWords (analyzeText (Some b)))%Z.
Proof.
  intros Hsep.
  assert (E : extractWords (Some (a ++ String sep b)%string)
              = extractWords (Some a) ++ extractWords (Some b)).
  { rewrite !extractWords_runs, (word_runs_app_sep a b sep Hsep).
    apply filter_app. }
  split; [exact E|].
  unfold analyzeText. cbn [Analysis.totalWords]. rewrite E, length_app. lia.
Qed.

Lemma extractWords_app_sep_witness :
  extractWords (Some ("The fox runs" ++ String "," "the dog sleeps")%string)
  = ["fox"; "runs"] ++ ["dog"; "sleeps"].
Proof.
  exact (proj1 (extractWords_app_sep "The fox runs" "the dog sleeps" "," eq_refl)).
Defined.

(** ** Trimming *)

Lemma trimStart_idempotent (s : string) : trimStart (trimStart s) = trimStart s.
Proof.
  induction s as [|c s IH]; [reflexivity|].
  cbn [trimStart]. destruct (is_space c) eqn:Hs; [exact IH|].
  cbn [trimStart]. now rewrite Hs.
Qed.

Lemma trimEnd_fixed_tail (c : ascii) (s : string) :
  trimEnd (String c s) = String c s ->
  (s = EmptyString /\ is_space c = false) \/ (s <> EmptyString /\ trimEnd s = s).
Proof.
  rewrite trimEnd_cons. destruct (trimEnd s) as [|d r] eqn:E.
  - destruct (is_space c); [discriminate|]. intros [= <-]. now left.
  - intros [= <-]. right. split; [discriminate|reflexivity].
Qed.

Lemma trimStart_of_trimmed_end (s : string) :
  trimEnd s = s ->
  trimEnd (trimStart s) = trimStart s /\ (s <> EmptyString -> trimStart s <> EmptyString).
Proof.
  induction s as [|c s IH]; intros H; [now split|].
  cbn [trimStart]. destruct (is_space c) eqn:Hs; [|split; [exact H|discriminate]].
  destruct (trimEnd_fixed_tail c s H) as [[_ Hc]|[Hne Ht]]; [congruence|].
  destruct (IH Ht) as [H1 H2]. split; [exact H1|]. intros _. now apply H2.
Qed.

Lemma trimStart_length (s : string) :
  String.length (trimStart s) <= String.length s.
Proof.
  induction s as [|c s IH]; [apply le_n|]. cbn [trimStart].
  destruct (is_space c); cbn [String.length]; lia.
Qed.

Lemma trimStart_fixed_head (c : ascii) (s : string) :
  trimStart (String c s) = String c s -> is_space c = false.
Proof.
  cbn [trimStart]. destruct (is_space c); [|reflexivity].
  intros H. pose proof (trimStart_length s) as Hl.
  rewrite H in Hl. cbn [String.length] in Hl. lia.
Qed.

Lemma trimStart_of_trimmed_start (s : string) :
  trimStart s = s -> trimStart (trimEnd s) = trimEnd s.
Proof.
  destruct s as [|c s]; [reflexivity|]. intros H.
  pose proof (trimStart_fixed_head c s H) as Hs.
  rewrite trimEnd_cons. rewrite Hs.
  destruct (trimEnd s); cbn [trimStart]; now rewrite Hs.
Qed.

Lemma trim_idempotent (s : string) : trim (trim s) = trim s.
Proof.
  unfold trim.
  rewrite (trimStart_of_trimmed_start _ (trimStart_idempotent s)).
  apply trimEnd_idempotent.
Qed.

Lemma trim_presentable (t : string) :
  (0 <? strlen (trim t))%Z = true -> presentable (trim t).
Proof.
  intros H. split; [|apply trim_idempotent].
  intros E. rewrite E in H. discriminate.
Qed.

Lemma all_chars_trimStart (class : ascii -> bool) (s : string) :
  all_chars class s = true -> all_chars class (trimStart s) = true.
Proof.
  induction s as [|c s IH]; [auto|]. intros H. cbn [trimStart].
  destruct (is_space c); [|exact H].
  cbn [all_chars] in H. apply andb_prop in H. now apply IH.
Qed.

Lemma all_chars_trimEnd (class : ascii -> bool) (s : string) :
  all_chars class s = true -> all_chars class (trimEnd s) = true.
Proof.
  induction s as [|c s IH]; [auto|]. intros H. rewrite trimEnd_cons.
  cbn [all_chars] in H. apply andb_prop in H. destruct H as [Hc Hs].
  specialize (IH Hs). destruct (trimEnd s) as [|d r].
  - destruct (is_space c); [reflexivity|]. cbn [all_chars]. now rewrite Hc.
  - cbn [all_chars] in *. now rewrite Hc, IH.
Qed.

(** ** The page objects: text of an article *)

Lemma collapse_only_spaces (s : string) (b : bool) :
  all_chars (fun c => negb (is_space c) || Ascii.eqb c " ")
    (replace_runs_from is_space " " b s) = true.
Proof.
  revert b. induction s as [|c s IH]; intros b; [reflexivity|].
  cbn [replace_runs_from]. destruct (is_space c) eqn:Hs.
  - destruct b; [apply IH|]. cbn [all_chars]. now rewrite IH.
  - cbn [all_chars]. now rewrite Hs, IH.
Qed.

Lemma clean_char (c : ascii) :
  negb (is_space c) || Ascii.eqb c " " = true ->
  let r := lower_char (if negb (is_word c || is_space c) then " "%char else c) in
  lowword r || Ascii.eqb r " " = true.
Proof.
  destruct c as [[] [] [] [] [] [] [] []]; vm_compute;
    first [reflexivity | intros H; discriminate H].
Qed.

Lemma clean_chars (s : string) :
  all_chars (fun c => negb (is_space c) || Ascii.eqb c " ") s = true ->
  all_chars (fun c => lowword c || Ascii.eqb c " ")
    (toLowerCase (replace_each (fun c => negb (is_word c || is_space c)) " " s))
  = true.
Proof.
  induction s as [|c s IH]; [auto|]. cbn [all_chars replace_each toLowerCase].
  intros H. apply andb_prop in H. destruct H as [Hc Hs].
  rewrite (clean_char c Hc). now apply IH.
Qed.

(** X3: the text [ArticlePage.cleanText] returns consists of lower-case
    letters, digits, underscores and spaces only, and has no space at
    either end. *)
Theorem ArticlePage_cleanText_shape (text : string) :
  only (fun c => lowword c || Ascii.eqb c " ") (ArticlePage.cleanText text)
  /\ trim (ArticlePage.cleanText text) = ArticlePage.cleanText text.
Proof.
  unfold ArticlePage.cleanText, only. split; [|apply trim_idempotent].
  unfold trim. apply all_chars_trimEnd, all_chars_trimStart, clean_chars.
  apply collapse_only_spaces.
Qed.

Lemma toLowerCase_idempotent (s : string) : toLowerCase (toLowerCase s) = toLowerCase s.
Proof.
  induction s as [|c s IH]; [reflexivity|].
  cbn [toLowerCase]. now rewrite lower_char_idempotent, IH.
Qed.

Lemma toLowerCase_trimStart (s : string) :
  toLowerCase (trimStart s) = trimStart (toLowerCase s).
Proof.
  induction s as [|c s IH]; [reflexivity|].
  cbn [trimStart toLowerCase]. rewrite lower_char_space.
  now destruct (is_space c).
Qed.

Lemma toLowerCase_trimEnd (s : string) :
  toLowerCase (trimEnd s) = trimEnd (toLowerCase s).
Proof.
  induction s as [|c s IH]; [reflexivity|].
  cbn [toLowerCase]. rewrite !trimEnd_cons, <- IH, lower_char_space.
  destruct (trimEnd s); [now destruct (is_space c)|reflexivity].
Qed.

Lemma toLowerCase_trim (s : string) : toLowerCase (trim s) = trim (toLowerCase s).
Proof. unfold trim. now rewrite toLowerCase_trimEnd, toLowerCase_trimStart. Qed.

Lemma word_runs_trim (s : string) : word_runs (trim s) = word_runs s.
Proof.
  unfold word_runs. rewrite toLowerCase_trim.
  apply (split_trim nonword space_is_nonword).
Qed.

Lemma cleaned_char (c : ascii) :
  let r := lower_char (if negb (is_word c || is_space c) then " "%char else c) in
  nonword r = nonword (lower_char c)
  /\ (nonword (lower_char c) = false -> r = lower_char c).
Proof.
  destruct c as [[] [] [] [] [] [] [] []]; vm_compute; split;
    first [reflexivity | intros H; first [reflexivity | discriminate H]].
Qed.

Lemma split_step_separator (class : ascii -> bool) (c d : ascii) (b : bool)
    (L : list string) :
  class c = true -> class d = true ->
  split_step class c b L = split_step class d b L.
Proof. intros Hc Hd. unfold split_step. now rewrite Hc, Hd. Qed.

Lemma split_pre_cleaned (s : string) :
  forall b f : bool,
    (f = true -> b = true) ->
    split_runs_from nonword b
      (toLowerCase
         (replace_each (fun c => negb (is_word c || is_space c)) " "
            (replace_runs_from is_space " " f s)))
    = split_runs_from nonword b (toLowerCase s).
Proof.
  induction s as [|c s IH]; intros b f Hf; [reflexivity|].
  cbn [replace_runs_from toLowerCase].
  rewrite (split_cons nonword (lower_char c) (toLowerCase s) b).
  destruct (is_space c) eqn:Hs.
  - assert (Hn : nonword (lower_char c) = true).
    { apply space_is_nonword. now rewrite lower_char_space. }
    rewrite Hn. destruct f.
    + rewrite (Hf eq_refl). unfold split_step. rewrite Hn.
      now apply IH.
    + cbn [replace_each toLowerCase]. rewrite split_cons.
      change (lower_char (if negb (is_word " " || is_space " ") then " "%char
                          else " "%char)) with " "%char.
      change (nonword " ") with true.
      rewrite (IH true true (fun _ => eq_refl)).
      now apply split_step_separator.
  - cbn [replace_each toLowerCase]. rewrite split_cons.
    destruct (cleaned_char c) as [Hr Hc]. cbv zeta in Hr, Hc.
    rewrite Hr. rewrite IH by discriminate.
    destruct (nonword (lower_char c)) eqn:Hn.
    + now apply split_step_separator.
    + now rewrite Hc.
Qed.

Lemma word_runs_pre_cleaned (text : string) :
  word_runs (ArticlePage.cleanText text) = word_runs text.
Proof.
  unfold ArticlePage.cleanText. rewrite word_runs_trim.
  unfold word_runs, split_runs, replace_runs.
  rewrite toLowerCase_idempotent. f_equal.
  now apply split_pre_cleaned.
Qed.

(** X4: on text of the code units the model covers (below 256, where
    lower-casing never turns a character that is no word character into
    one), cleaning a text with [ArticlePage.cleanText] before handing it
    to the analyzer changes neither the words the analyzer extracts nor
    its analysis. *)
Theorem analysis_ignores_pre_cleaning (text : string) :
  extractWords (Some (ArticlePage.cleanText text)) = extractWords (Some text)
  /\ analyzeText (Some (ArticlePage.cleanText text)) = analyzeText (Some text).
Proof.
  assert (E : extractWords (Some (ArticlePage.cleanText text))
              = extractWords (Some text))
    by (now rewrite !extractWords_runs, word_runs_pre_cleaned).
  split; [exact E|]. unfold analyzeText. now rewrite E.
Qed.

Lemma word_runs_join (l : list string) :
  word_runs (join " " l) = flat_map word_runs l.
Proof.
  induction l as [|x l IH]; [reflexivity|].
  cbn [join flat_map]. destruct l as [|y l].
  - cbn [flat_map]. now rewrite app_nil_r.
  - rewrite <- IH.
    change (x ++ " " ++ join " " (y :: l))%string
      with (x ++ String " " (join " " (y :: l)))%string.
    now apply word_runs_app_sep.
Qed.

Lemma word_runs_nonblank (contents : list string) :
  flat_map word_runs
    (filter (fun text => (0 <? strlen text)%Z) (map trim contents))
  = flat_map word_runs contents.
Proof.
  induction contents as [|c contents IH]; [reflexivity|].
  cbn [map filter flat_map]. rewrite <- IH, <- (word_runs_trim c).
  destruct (trim c) as [|d t]; [reflexivity|].
  assert (H : (0 <? strlen (String d t))%Z = true)
    by (apply Z.ltb_lt; unfold strlen; cbn [String.length]; lia).
  now rewrite H.
Qed.

Lemma filter_flat_map {A B : Type} (f : B -> bool) (g : A -> list B) (l : list A) :
  filter f (flat_map g l) = flat_map (fun x => filter f (g x)) l.
Proof.
  induction l as [|x l IH]; [reflexivity|].
  cbn [flat_map]. now rewrite filter_app, IH.
Qed.

(** X5: on text of the code units the model covers, the words the
    analyzer extracts from the text [getArticleText] returns are the
    words of the matched elements, element after element in document
    order: trimming the elements, dropping the blank ones, joining them
    with spaces and pre-cleaning lose no word and make none. *)
Theorem getArticleText_words (contents : list string) :
  extractWords (Some (ArticlePage.getArticleText (Normal contents)))
  = flat_map (fun content => extractWords (Some content)) contents.
Proof.
  unfold ArticlePage.getArticleText. cbv zeta.
  rewrite extractWords_runs, word_runs_pre_cleaned, word_runs_join,
    word_runs_nonblank, filter_flat_map.
  apply flat_map_ext. intros content. symmetry. apply extractWords_runs.
Qed.

(** ** The page objects: title, author and date *)

Lemma presentable_trimEnd (s : string) : presentable s -> trimEnd s = s.
Proof.
  intros [_ H]. rewrite <- H at 1. unfold trim.
  rewrite trimEnd_idempotent. exact H.
Qed.

Lemma first_text_presentable (page : string -> probe) (selectors : list string)
    (t : string) :
  ArticlePage.first_text page selectors = Some t -> presentable t.
Proof.
  induction selectors as [|selector rest IH]; cbn [ArticlePage.first_text];
    [discriminate|].
  destruct (page selector) as [|[content|]|]; try exact IH; try discriminate.
  destruct (negb (falsy_string (Some content))); cbn [andb]; [|exact IH].
  destruct (0 <? strlen (trim content))%Z eqn:E; [|exact IH].
  intros [= <-]. now apply trim_presentable.
Qed.

Lemma strip_by_presentable (s : string) : presentable s -> presentable (strip_by s).
Proof.
  intros Hs. pose proof (presentable_trimEnd s Hs) as He.
  unfold strip_by.
  destruct s as [|b [|y [|c rest]]]; try exact Hs.
  destruct ((Ascii.eqb b "b" || Ascii.eqb b "B")
            && (Ascii.eqb y "y" || Ascii.eqb y "Y")); cbn [andb]; [|exact Hs].
  destruct (is_space c) eqn:Hc; [|exact Hs].
  destruct (trimEnd_fixed_tail _ _ He) as [[H _]|[_ He1]]; [discriminate|].
  destruct (trimEnd_fixed_tail _ _ He1) as [[H _]|[_ He2]]; [discriminate|].
  destruct (trimEnd_fixed_tail _ _ He2) as [[_ H]|[Hne He3]]; [congruence|].
  destruct (trimStart_of_trimmed_end rest He3) as [H1 H2].
  split; [now apply H2|].
  unfold trim. now rewrite trimStart_idempotent.
Qed.

(** X6: whatever the page answers, [getArticleTitle], [getAuthor] and
    [getPublishDate] return a string that is not empty and has no
    whitespace at either end: the trimmed text of an element (for the
    author without a leading "by"), or the default. *)
Theorem page_getters_presentable (page : string -> probe) :
  presentable (ArticlePage.getArticleTitle page)
  /\ presentable (ArticlePage.getAuthor page)
  /\ presentable (ArticlePage.getPublishDate page).
Proof.
  split; [|split].
  - unfold ArticlePage.getArticleTitle.
    destruct (page _) as [|[t|]|];
      [split; [discriminate|reflexivity]| |split; [discriminate|reflexivity]..].
    destruct (negb (falsy_string (Some t))); cbn [andb];
      [|split; [discriminate|reflexivity]].
    destruct (0 <? strlen (trim t))%Z eqn:E; [|split; [discriminate|reflexivity]].
    now apply trim_presentable.
  - unfold ArticlePage.getAuthor.
    destruct (ArticlePage.first_text page _) as [author|] eqn:E;
      [|split; [discriminate|reflexivity]].
    exact (strip_by_presentable _ (first_text_presentable _ _ _ E)).
  - unfold ArticlePage.getPublishDate.
    destruct (ArticlePage.first_text page _) as [date|] eqn:E;
      [|split; [discriminate|reflexivity]].
    exact (first_text_presentable _ _ _ E).
Qed.

(** ** The page objects: links of the blog page *)

Lemma indexOf_from_fresh (pre : list string) (x : string) (rest : list string)
    (i : Z) :
  existsb (String.eqb x) pre = false ->
  indexOf_from (pre ++ x :: rest) x i = (i + Z.of_nat (List.length pre))%Z.
Proof.
  revert i. induction pre as [|y pre IH]; intros i H; cbn [app indexOf_from].
  - rewrite String.eqb_refl. cbn [List.length]. lia.
  - cbn [existsb] in H. apply orb_false_elim in H. destruct H as [Hy Hpre].
    rewrite String.eqb_sym, Hy, (IH _ Hpre). cbn [List.length]. lia.
Qed.

Lemma indexOf_from_seen (pre : list string) (x : string) (rest : list string)
    (i : Z) :
  existsb (String.eqb x) pre = true ->
  (indexOf_from (pre ++ rest) x i < i + Z.of_nat (List.length pre))%Z.
Proof.
  revert i. induction pre as [|y pre IH]; intros i H; [discriminate|].
  cbn [app indexOf_from existsb List.length] in *.
  rewrite String.eqb_sym. destruct (String.eqb x y); [lia|].
  cbn [orb] in H. specialize (IH (i + 1)%Z H). lia.
Qed.

Lemma filter_unseen (pre : list string) (x : string) (l : list string) :
  filter (fun y => negb (existsb (String.eqb y) (pre ++ [x]))) l
  = filter (fun y => negb (existsb (String.eqb y) pre))
      (filter (fun y => negb (String.eqb y x)) l).
Proof.
  induction l as [|y l IH]; [reflexivity|].
  cbn [filter]. rewrite existsb_app. cbn [existsb]. rewrite orb_false_r.
  destruct (String.eqb y x); cbn [negb filter].
  - rewrite orb_true_r. exact IH.
  - rewrite orb_false_r.
    destruct (existsb (String.eqb y) pre); cbn [negb]; [exact IH|now rewrite IH].
Qed.

Lemma links_from (all pre l : list string) :
  all = pre ++ l ->
  filter_from (fun href index => (indexOf all href =? index)%Z)
    (Z.of_nat (List.length pre)) l
  = filter (fun y => negb (existsb (String.eqb y) pre)) (first_seen l).
Proof.
  revert pre. induction l as [|x l IH]; intros pre Hall; [reflexivity|].
  cbn [filter_from first_seen filter].
  assert (Hnext : all = (pre ++ [x]) ++ l) by (now rewrite <- app_assoc).
  specialize (IH (pre ++ [x]) Hnext).
  rewrite length_app in IH. cbn [List.length] in IH.
  replace (Z.of_nat (List.length pre + 1)) with (Z.of_nat (List.length pre) + 1)%Z
    in IH by lia.
  rewrite IH, filter_unseen.
  destruct (existsb (String.eqb x) pre) eqn:E; cbn [negb].
  - pose proof (indexOf_from_seen pre x (x :: l) 0 E) as Hlt.
    unfold indexOf. rewrite Hall.
    destruct (indexOf_from (pre ++ x :: l) x 0 =? Z.of_nat (List.length pre))%Z eqn:Ei;
      [apply Z.eqb_eq in Ei; lia|reflexivity].
  - unfold indexOf. rewrite Hall, (indexOf_from_fresh pre x l 0 E).
    now rewrite Z.eqb_refl.
Qed.

Lemma getArticleLinks_first_seen (hrefs : list string) :
  BlogPage.getArticleLinks hrefs = first_seen hrefs.
Proof.
  unfold BlogPage.getArticleLinks, filter_indexed.
  pose proof (links_from hrefs [] hrefs eq_refl) as H.
  cbn [List.length Z.of_nat existsb negb] in H. rewrite H.
  apply filter_all. reflexivity.
Qed.

Lemma first_seen_In (l : list string) (x : string) :
  In x (first_seen l) <-> In x l.
Proof.
  induction l as [|y l IH]; [reflexivity|].
  cbn [first_seen In]. rewrite filter_In, IH, negb_true_iff, String.eqb_neq.
  destruct (string_dec y x) as [->|Hne]; [tauto|].
  split; [tauto|]. intros [H|H]; [contradiction|]. right. split; [exact H|congruence].
Qed.

Lemma first_seen_NoDup (l : list string) : NoDup (first_seen l).
Proof.
  induction l as [|y l IH]; [constructor|].
  cbn [first_seen]. constructor.
  - rewrite filter_In, negb_true_iff, String.eqb_neq. tauto.
  - now apply NoDup_filter.
Qed.

(** X7: [getArticleLinks] returns each distinct [href] of the matched
    anchors once, in the order of first appearance on the page: no link
    is repeated, none is lost and none is made up. *)
Theorem getArticleLinks_distinct (hrefs : list string) :
  BlogPage.getArticleLinks hrefs = first_seen hrefs
  /\ NoDup (BlogPage.getArticleLinks hrefs)
  /\ (forall href, In href (BlogPage.getArticleLinks hrefs) <-> In href hrefs).
Proof.
  rewrite getArticleLinks_first_seen. split; [reflexivity|]. split.
  - apply first_seen_NoDup.
  - intros href. apply first_seen_In.
Qed.

(** X8: for a count [n >= 0], [getLatestArticleLinks] returns the first
    [n] distinct links ([min n d] of them when the page has [d] distinct
    links), and [verifyArticlesLoaded] with the same number holds exactly
    when [getLatestArticleLinks] returns [n] links. *)
Theorem getLatestArticleLinks_count (hrefs : list string) (n : Z) :
  (0 <= n)%Z ->
  BlogPage.getLatestArticleLinks hrefs (Some n)
  = firstn (Z.to_nat n) (first_seen hrefs)
  /\ Z.of_nat (List.length (BlogPage.getLatestArticleLinks hrefs (Some n)))
     = Z.min n (Z.of_nat (List.length (first_seen hrefs)))
  /\ (BlogPage.verifyArticlesLoaded hrefs (Some n) = true
      <-> Z.of_nat (List.length (BlogPage.getLatestArticleLinks hrefs (Some n))) = n).
Proof.
  intros Hn.
  unfold BlogPage.getLatestArticleLinks, BlogPage.verifyArticlesLoaded,
    BlogPage.getArticleCount. cbv zeta.
  rewrite getArticleLinks_first_seen, (slice0_nonneg _ n Hn), firstn_min_length.
  split; [reflexivity|]. rewrite length_firstn. split; [lia|].
  rewrite Z.leb_le. lia.
Qed.

Lemma getLatestArticleLinks_count_witness :
  BlogPage.getLatestArticleLinks
    ["/blog/a"; "/blog/b"; "/blog/a"; "/blog/c"; "/blog/d"] (Some 3%Z)
  = ["/blog/a"; "/blog/b"; "/blog/c"].
Proof.
  apply (getLatestArticleLinks_count
           ["/blog/a"; "/blog/b"; "/blog/a"; "/blog/c"; "/blog/d"] 3%Z).
  lia.
Defined.

(** ** The helpers: time stamps *)

(** X9: the time stamp [getTimestamp] makes of the ISO text of the time
    has the same length, contains neither a colon nor a dot, and is the
    ISO text itself when that has neither. *)
Theorem getTimestamp_safe (now : string) :
  String.length (TestHelpers.getTimestamp now) = String.length now
  /\ only (fun c => negb (Ascii.eqb c ":" || Ascii.eqb c "."))
       (TestHelpers.getTimestamp now)
  /\ (only (fun c => negb (Ascii.eqb c ":" || Ascii.eqb c ".")) now ->
      TestHelpers.getTimestamp now = now).
Proof.
  unfold TestHelpers.getTimestamp, only.
  induction now as [|c now (IHlen & IHonly & IHid)]; [now repeat split|].
  cbn [replace_each String.length all_chars]. repeat split.
  - now rewrite IHlen.
  - rewrite IHonly. cbv beta.
    destruct (Ascii.eqb c ":" || Ascii.eqb c ".") eqn:E; [reflexivity|now rewrite E].
  - intros H. apply andb_prop in H. destruct H as [Hc H].
    apply negb_true_iff in Hc. now rewrite Hc, (IHid H).
Qed.

Lemma getTimestamp_safe_witness :
  TestHelpers.getTimestamp "2024-05-01T10-00-00-000Z" = "2024-05-01T10-00-00-000Z".
Proof.
  apply (proj2 (proj2 (getTimestamp_safe "2024-05-01T10-00-00-000Z"))).
  reflexivity.
Defined.

(** ** What the counter counts *)

Lemma count_fold (words : list string) :
  forall o : object,
    sound_table o ->
    (forall x, In x words -> in_Object_prototype x = false) ->
    sound_table (fold_left (fun f w => bump f w (Num 1)) words o)
    /\ forall w,
         count_in (fold_left (fun f w => bump f w (Num 1)) words o) w
         = (count_in o w + Z.of_nat (count_occ string_dec words w))%Z
         /\ has_word (fold_left (fun f w => bump f w (Num 1)) words o) w
            = (has_word o w || (0 <? count_occ string_dec words w)%nat).
Proof.
  induction words as [|x words IH]; intros o Ho Hw; cbn [fold_left].
  - split; [exact Ho|]. intros w. cbn [count_occ Nat.ltb Nat.leb].
    rewrite orb_false_r. split; [lia|reflexivity].
  - assert (Hx : in_Object_prototype x = false) by (apply Hw; now left).
    destruct (bump_plain o x 1 Ho Hx) as (Ho1 & _ & _); [lia|].
    destruct (IH _ Ho1 (fun y Hy => Hw y (or_intror Hy))) as [Hs Hc].
    split; [exact Hs|]. intros w. destruct (Hc w) as [Hcount Hhas].
    destruct (count_in_bump o x 1 w Ho Hx) as [Hc1 Hh1]; [lia|].
    rewrite Hcount, Hhas, Hc1, Hh1. cbn [count_occ].
    destruct (string_dec x w) as [->|Hne].
    + rewrite String.eqb_refl. cbn [orb]. rewrite orb_true_r.
      split; [lia|reflexivity].
    + apply String.eqb_neq in Hne. rewrite Hne. cbn [orb].
      split; reflexivity.
Qed.

(** X13: when no word of the list names a property of
    [Object.prototype], [countWordFrequency] counts: the table holds, for
    every word of the list, the number of its occurrences, and it holds
    no other word. *)
Theorem countWordFrequency_counts (words : list string) (w : string) :
  (forall x, In x words -> in_Object_prototype x = false) ->
  own_get (countWordFrequency words) w
  = if (0 <? count_occ string_dec words w)%nat
    then Some (Num (Z.of_nat (count_occ string_dec words w)))
    else None.
Proof.
  intros Hw. rewrite countWordFrequency_bump.
  destruct (count_fold words [] sound_empty Hw) as [Hs Hc].
  destruct (Hc w) as [Hcount Hhas].
  change (count_in [] w) with 0%Z in Hcount.
  change (has_word [] w) with false in Hhas. cbn [orb] in Hhas.
  rewrite <- Hhas. unfold has_word. unfold count_in in Hcount.
  destruct (own_get _ w) as [p|] eqn:E; [|reflexivity].
  destruct (positive_own_get _ w p (proj1 Hs) E) as [n [-> _]].
  f_equal. f_equal. lia.
Qed.

Lemma countWordFrequency_counts_witness :
  own_get (countWordFrequency ["quick"; "fox"; "quick"]) "quick" = Some (Num 2).
Proof.
  apply (countWordFrequency_counts ["quick"; "fox"; "quick"] "quick").
  intros x [<-|[<-|[<-|[]]]]; reflexivity.
Defined.

(** ** The order of the keys *)

Lemma has_word_keys (o : object) (w : string) :
  has_word o w = existsb (String.eqb w) (Object_keys o).
Proof.
  unfold has_word.
  induction o as [|[k v] o IH]; [reflexivity|].
  cbn [own_get Object_keys map fst existsb]. rewrite (String.eqb_sym w k).
  destruct (String.eqb k w); [reflexivity|exact IH].
Qed.

Lemma keys_bump (o : object) (w : string) (c : prim) :
  array_index w = None ->
  Object_keys (bump o w c)
  = if has_word o w || String.eqb w "__proto__" then Object_keys o
    else Object_keys o ++ [w].
Proof.
  intros Hi. unfold bump, obj_set, has_word.
  destruct (own_get o w); cbn [orb]; [apply keys_own_update|].
  destruct (String.eqb w "__proto__"); [reflexivity|].
  unfold own_add. rewrite Hi. unfold Object_keys. now rewrite map_app.
Qed.

Lemma keys_bump_length (o : object) (w : string) (c : prim) :
  List.length (Object_keys (bump o w c)) <= S (List.length (Object_keys o)).
Proof.
  unfold bump, obj_set.
  destruct (own_get o w); [rewrite keys_own_update; lia|].
  destruct (String.eqb w "__proto__"); [lia|].
  rewrite <- (Permutation_length (keys_own_add o w _)). cbn [List.length]. lia.
Qed.

Lemma keys_fold (words : list string) :
  forall o : object,
    (forall x, In x words -> array_index x = None) ->
    Object_keys (fold_left (fun f w => bump f w (Num 1)) words o)
    = Object_keys o
      ++ filter (fun y => negb (existsb (String.eqb y) (Object_keys o)))
           (first_seen
              (filter (fun w => negb (String.eqb w "__proto__")) words)).
Proof.
  induction words as [|x words IH]; intros o Hw; cbn [fold_left filter].
  - cbn [first_seen filter]. now rewrite app_nil_r.
  - rewrite (IH _ (fun y Hy => Hw y (or_intror Hy))).
    rewrite (keys_bump o x (Num 1) (Hw x (or_introl eq_refl))).
    rewrite has_word_keys.
    destruct (String.eqb x "__proto__") eqn:Ep; cbn [negb].
    + now rewrite orb_true_r.
    + rewrite orb_false_r. cbn [first_seen filter].
      destruct (existsb (String.eqb x) (Object_keys o)) eqn:Ex; cbn [negb].
      * f_equal. rewrite <- (filter_implied
          (fun y => negb (existsb (String.eqb y) (Object_keys o)))
          (fun y => negb (String.eqb y x)) (first_seen _)); [reflexivity|].
        intros y Hy. apply negb_true_iff in Hy. apply negb_true_iff.
        destruct (String.eqb y x) eqn:E; [|reflexivity].
        apply String.eqb_eq in E. subst y. congruence.
      * rewrite <- app_assoc. cbn [app]. now rewrite filter_unseen.
Qed.

Lemma extractWords_no_index (text : option string) (w : string) :
  In w (extractWords text) -> array_index w = None.
Proof.
  rewrite extractWords_significant. intros H. apply filter_In in H.
  destruct H as [_ H]. unfold significant in H.
  apply andb_prop in H. destruct H as [_ H]. apply negb_true_iff in H.
  unfold array_index. now rewrite H.
Qed.

(** X14: for every text, the keys of the table of its analysis are the
    distinct words of the text in the order of their first appearance,
    the word "__proto__" left out (it never becomes a key). *)
Theorem frequency_keys_first_seen (text : option string) :
  Object_keys (Analysis.frequency (analyzeText text))
  = first_seen
      (filter (fun w => negb (String.eqb w "__proto__")) (extractWords text)).
Proof.
  unfold analyzeText. cbn [Analysis.frequency].
  rewrite countWordFrequency_bump, (keys_fold _ [] (extractWords_no_index text)).
  cbn [Object_keys map app existsb negb]. apply filter_all. reflexivity.
Qed.

Lemma keys_fold_length (words : list string) :
  forall o : object,
    List.length (Object_keys (fold_left (fun f w => bump f w (Num 1)) words o))
    <= List.length (Object_keys o) + List.length words.
Proof.
  induction words as [|x words IH]; intros o; cbn [fold_left List.length]; [lia|].
  specialize (IH (bump o x (Num 1))).
  pose proof (keys_bump_length o x (Num 1)). lia.
Qed.

Lemma frequency_keys_length (text : option string) :
  List.length (Object_keys (countWordFrequency (extractWords text)))
  <= List.length (extractWords text).
Proof.
  rewrite countWordFrequency_bump.
  exact (keys_fold_length (extractWords text) []).
Qed.

(** X15: for every text, the analysis has at most as many unique words
    as words in total, and at most 5 top words and at most as many as
    unique words. *)
Theorem analyzeText_bounds (text : option string) :
  (0 <= Analysis.uniqueWords (analyzeText text)
   <= Analysis.totalWords (analyzeText text))%Z
  /\ (Z.of_nat (List.length (Analysis.topWords (analyzeText text))) <= 5)%Z
  /\ (Z.of_nat (List.length (Analysis.topWords (analyzeText text)))
      <= Analysis.uniqueWords (analyzeText text))%Z.
Proof.
  pose proof (frequency_keys_length text) as Hk.
  unfold analyzeText in *.
  cbn [Analysis.uniqueWords Analysis.totalWords Analysis.topWords
       Analysis.frequency] in *.
  change (getTopWords ?f None) with (getTopWords f (Some 5%Z)).
  rewrite getTopWords_length by lia. lia.
Qed.

(** ** Ranking any table *)

Lemma NoDup_firstn_of {A : Type} (k : nat) (l : list A) :
  NoDup l -> NoDup (firstn k l).
Proof.
  intros H. rewrite <- (firstn_skipn k l) in H.
  exact (NoDup_app_remove_r _ _ H).
Qed.

Lemma ranked_entries_words (freq : object) :
  map Ranked.word (ranked_entries freq) = Object_keys freq.
Proof.
  unfold ranked_entries, Object_entries, Object_keys. rewrite map_map.
  apply map_ext. reflexivity.
Qed.

(** X16: for every table, also one whose counts are no numbers, and
    every [N >= 0], [getTopWords] answers with [min N d] entries of the
    table, where [d] is the number of its entries; no word occurs twice
    in the answer; the answer for [N] is the beginning of the answer for
    any larger count; and when [N >= d] the answer is a rearrangement of
    the whole table. *)
Theorem getTopWords_any_table (freq : object) (N M : Z) :
  (0 <= N)%Z -> (N <= M)%Z ->
  Z.of_nat (List.length (getTopWords freq (Some N)))
  = Z.min N (Z.of_nat (List.length (Object_keys freq)))
  /\ (forall r, In r (getTopWords freq (Some N)) ->
        In (Ranked.word r, Ranked.count r) (Object_entries freq))
  /\ (well_formed freq -> NoDup (map Ranked.word (getTopWords freq (Some N))))
  /\ getTopWords freq (Some N) = firstn (Z.to_nat N) (getTopWords freq (Some M))
  /\ ((Z.of_nat (List.length (Object_keys freq)) <= N)%Z ->
      Permutation (getTopWords freq (Some N)) (ranked_entries freq)).
Proof.
  intros HN HM. split; [now apply getTopWords_length|].
  rewrite !getTopWords_slice, !slice0_nonneg, !firstn_min_length by lia.
  assert (Hperm : Permutation (ranked_entries freq) (ranking freq))
    by apply sort_perm.
  repeat split.
  - intros r Hin.
    assert (Hin' : In r (ranking freq)).
    { rewrite <- (firstn_skipn (Z.to_nat N) (ranking freq)).
      apply in_or_app. now left. }
    apply (Permutation_in r (Permutation_sym Hperm)) in Hin'.
    unfold ranked_entries in Hin'. apply in_map_iff in Hin'.
    destruct Hin' as [[w c] [<- He]]. exact He.
  - intros Hwf. rewrite <- firstn_map. apply NoDup_firstn_of.
    apply (Permutation_NoDup (Permutation_map Ranked.word Hperm)).
    now rewrite ranked_entries_words.
  - rewrite firstn_firstn. f_equal. lia.
  - intros Hall. rewrite firstn_all2; [now apply Permutation_sym|].
    rewrite ranking_length. lia.
Qed.

Lemma getTopWords_any_table_witness :
  getTopWords [("constructor", Text "" "constructor" "1"); ("fox", Num 2)] (Some 1%Z)
  = firstn 1
      (getTopWords [("constructor", Text "" "constructor" "1"); ("fox", Num 2)]
         (Some 5%Z)).
Proof.
  apply (getTopWords_any_table
           [("constructor", Text "" "constructor" "1"); ("fox", Num 2)] 1 5); lia.
Defined.

(** ** Ties *)

Lemma words_with_count (freq : object) (n : Z) :
  well_formed freq -> numeric freq ->
  map Ranked.word (with_count n (ranked_entries freq))
  = filter (fun w => (count_in freq w =? n)%Z) (Object_keys freq).
Proof.
  unfold well_formed, numeric, with_count, ranked_entries, Object_entries,
    Object_keys.
  induction freq as [|[k v] freq IH]; intros Hwf Hnum; [reflexivity|].
  cbn [map fst] in Hwf. apply NoDup_cons_iff in Hwf.
  destruct Hwf as [Hk Hwf].
  inversion Hnum as [|? ? [c Hc] Hnum']; subst. cbn [snd] in Hc. subst v.
  cbn [map filter fst snd].
  rewrite (count_in_cons k (Num c) freq k), String.eqb_refl.
  unfold has_count at 1. cbn [Ranked.count].
  assert (Hrest : filter (fun w => (count_in ((k, Num c) :: freq) w =? n)%Z)
                    (map fst freq)
                  = filter (fun w => (count_in freq w =? n)%Z) (map fst freq)).
  { apply filter_ext_in. intros w Hw. rewrite count_in_cons.
    destruct (String.eqb k w) eqn:E; [|reflexivity].
    apply String.eqb_eq in E. subst w. contradiction. }
  rewrite Hrest, <- (IH Hwf Hnum').
  now destruct (c =? n)%Z.
Qed.

Lemma positive_numeric (o : object) : positive_counts o -> numeric o.
Proof.
  unfold positive_counts, numeric. apply Forall_impl.
  intros e [n [Hn _]]. now exists n.
Qed.

(** X18: for a text without the words "constructor" and "__proto__",
    the ranking of its table lists the words of any one count in the
    order of their first appearance in the text: ties are broken by
    first appearance. *)
Theorem ties_by_first_appearance (text : option string) (n : Z) :
  ~ In "constructor" (extractWords text) ->
  ~ In "__proto__" (extractWords text) ->
  map Ranked.word
    (with_count n (ranking (Analysis.frequency (analyzeText text))))
  = filter
      (fun w => (Z.of_nat (count_occ string_dec (extractWords text) w) =? n)%Z)
      (first_seen (extractWords text)).
Proof.
  intros Hc Hp.
  assert (Hplain : forall x, In x (extractWords text) ->
                             in_Object_prototype x = false).
  { intros x Hx. destruct (in_Object_prototype x) eqn:E; [|reflexivity].
    destruct (extractWords_prototype_name text x Hx E) as [-> | ->];
      contradiction. }
  assert (Hkeep : filter (fun w => negb (String.eqb w "__proto__"))
                    (extractWords text) = extractWords text).
  { apply filter_all. intros w Hw.
    destruct (String.eqb w "__proto__") eqn:E; [|reflexivity].
    apply String.eqb_eq in E. subst w. contradiction. }
  destruct (countWordFrequency_sound text Hc) as [(Hpos & _ & Hwf) _].
  unfold analyzeText. cbn [Analysis.frequency].
  unfold ranking.
  rewrite (sort_stable n _ (numeric_ranked_entries _ (positive_numeric _ Hpos))).
  rewrite (words_with_count _ n Hwf (positive_numeric _ Hpos)).
  rewrite countWordFrequency_bump,
    (keys_fold _ [] (extractWords_no_index text)), Hkeep.
  cbn [Object_keys map app existsb negb].
  rewrite (filter_all (fun _ => true)) by reflexivity.
  apply filter_ext_in. intros w Hw.
  destruct (count_fold (extractWords text) [] sound_empty Hplain) as [_ Hcnt].
  destruct (Hcnt w) as [Hcount _].
  change (count_in [] w) with 0%Z in Hcount. now rewrite Hcount.
Qed.

Lemma ties_by_first_appearance_witness :
  map Ranked.word
    (with_count 2
       (ranking
          (Analysis.frequency
             (analyzeText (Some "The Quick, quick fox jumps! The fox runs.")))))
  = ["quick"; "fox"].
Proof.
  apply (ties_by_first_appearance
           (Some "The Quick, quick fox jumps! The fox runs.") 2);
    vm_compute; intuition discriminate.
Defined.

(** ** Normalized output and repeated analysis *)

Lemma tidy_only (s : string) (b : bool) :
  tidy b s -> only (fun c => lowword c || Ascii.eqb c " ") s.
Proof.
  unfold only. revert b. induction s as [|c s IH]; intros b H; [reflexivity|].
  cbn [tidy] in H. cbn [all_chars].
  destruct (Ascii.eqb c " ") eqn:E.
  - destruct H as [_ H]. rewrite orb_true_r. exact (IH _ H).
  - destruct H as [Hc H]. rewrite Hc. exact (IH _ H).
Qed.

(** X10: the text [cleanText] returns is normalized: it consists of
    lower-case letters, digits, underscores and single spaces only, has
    no space at either end, and is empty for a missing or empty text. *)
Theorem cleanText_output_normalized (text : option string) :
  normalized (cleanText text)
  /\ only (fun c => lowword c || Ascii.eqb c " ") (cleanText text)
  /\ trim (cleanText text) = cleanText text
  /\ (falsy_string text = true -> cleanText text = EmptyString).
Proof.
  destruct (cleanText_normalized text) as [Ht He].
  repeat split; try assumption.
  - exact (tidy_only _ _ Ht).
  - unfold trim. now rewrite (trimStart_tidy_id _ Ht).
  - destruct text as [[|c s]|]; [reflexivity|discriminate|reflexivity].
Qed.

Lemma cleanText_output_normalized_witness : cleanText (Some "") = "".
Proof.
  apply (proj2 (proj2 (proj2 (cleanText_output_normalized (Some ""))))).
  reflexivity.
Defined.

Lemma own_analysis_again (article : Article.t) :
  own_analysis (with_own_analysis article) = own_analysis article.
Proof. reflexivity. Qed.

(** X17: analysing the articles of a batch result once more gives the
    same batch result: an analysis that is already attached to an article
    is replaced, not accumulated. *)
Theorem analyzeMultipleArticles_again (articles : list Article.t)
    (topCount : option Z) :
  analyzeMultipleArticles
    (Batch.articles (analyzeMultipleArticles articles topCount)) topCount
  = analyzeMultipleArticles articles topCount.
Proof.
  rewrite !analyzeMultipleArticles_unfold. cbv zeta. cbn [Batch.articles].
  rewrite !map_map, length_map.
  rewrite (map_ext (fun x => Analysis.frequency (own_analysis (with_own_analysis x)))
             (fun a => Analysis.frequency (own_analysis a)))
    by reflexivity.
  rewrite (map_ext (fun x => with_own_analysis (with_own_analysis x))
             with_own_analysis) by reflexivity.
  reflexivity.
Qed.

(** ** Batches: order of the documents and backing of the top words *)

Lemma total_count_perm (t1 t2 : list object) (w : string) :
  Permutation t1 t2 ->
  total_count t1 w = total_count t2 w
  /\ existsb (fun t => has_word t w) t1 = existsb (fun t => has_word t w) t2.
Proof.
  induction 1 as [|x l l' _ [IH1 IH2]|x y l|l l' l'' _ [IH1 IH2] _ [IH3 IH4]];
    cbn [total_count existsb].
  - now split.
  - now rewrite IH1, IH2.
  - split; [lia|]. now rewrite !orb_assoc, (orb_comm (has_word y w)).
  - split; congruence.
Qed.

Lemma document_tables_sound (articles : list Article.t) :
  (forall a, In a articles ->
             ~ In "constructor" (extractWords (Some (text_or_empty a)))) ->
  Forall sound_table (map (fun a => Analysis.frequency (own_analysis a)) articles).
Proof.
  intros Hc. apply Forall_map, Forall_forall. intros a Ha.
  exact (proj1 (countWordFrequency_sound _ (Hc a Ha))).
Qed.

(** X19: for a batch in which no document contains the word
    "constructor", the counts of the combined table do not depend on the
    order of the documents. *)
Theorem combinedFrequency_any_order (articles articles' : list Article.t)
    (topCount : option Z) (w : string) :
  Permutation articles articles' ->
  (forall a, In a articles ->
             ~ In "constructor" (extractWords (Some (text_or_empty a)))) ->
  own_get (Batch.combinedFrequency (analyzeMultipleArticles articles topCount)) w
  = own_get (Batch.combinedFrequency (analyzeMultipleArticles articles' topCount)) w.
Proof.
  intros Hperm Hc.
  assert (Hc' : forall a, In a articles' ->
                  ~ In "constructor" (extractWords (Some (text_or_empty a)))).
  { intros a Ha. apply Hc. exact (Permutation_in a (Permutation_sym Hperm) Ha). }
  rewrite !analyzeMultipleArticles_unfold. cbn [Batch.combinedFrequency].
  rewrite (proj2 (combineFrequencies_sums _ w (document_tables_sound _ Hc))).
  rewrite (proj2 (combineFrequencies_sums _ w (document_tables_sound _ Hc'))).
  destruct (total_count_perm _ _ w
              (Permutation_map (fun a => Analysis.frequency (own_analysis a)) Hperm))
    as [E1 E2].
  now rewrite E1, E2.
Qed.

Lemma combinedFrequency_any_order_witness :
  let first := extracted 1 "Foxes" "/blog/foxes" "The fox runs. The fox jumps!" "Ann" "May" in
  let second := extracted 2 "Dogs" "/blog/dogs" "A lazy dog sleeps; the fox runs." "Bob" "June" in
  own_get (Batch.combinedFrequency (analyzeMultipleArticles [first; second] None)) "fox"
  = own_get (Batch.combinedFrequency (analyzeMultipleArticles [second; first] None)) "fox".
Proof.
  intros first second.
  apply (combinedFrequency_any_order [first; second] [second; first] None "fox").
  - apply perm_swap.
  - intros a [<-|[<-|[]]]; vm_compute; intuition discriminate.
Defined.

Lemma own_get_of_entry (o : object) (k : string) (v : prim) :
  well_formed o -> In (k, v) o -> own_get o k = Some v.
Proof.
  unfold well_formed, Object_keys.
  induction o as [|[k0 v0] o IH]; intros Hwf Hin; [contradiction|].
  cbn [map fst] in Hwf. apply NoDup_cons_iff in Hwf. destruct Hwf as [Hk Hwf].
  cbn [own_get]. destruct Hin as [[= -> ->]|Hin].
  - now rewrite String.eqb_refl.
  - destruct (String.eqb k0 k) eqn:E; [|now apply IH].
    apply String.eqb_eq in E. subst k0. exfalso. apply Hk.
    change k with (fst (k, v)). now apply in_map.
Qed.

Lemma slice0_In {A : Type} (l : list A) (e : Z) (x : A) :
  In x (slice0 l e) -> In x l.
Proof.
  unfold slice0. intros H.
  rewrite <- (firstn_skipn
    (Z.to_nat (if (e <? 0)%Z then Z.max (Z.of_nat (List.length l) + e) 0
               else Z.min e (Z.of_nat (List.length l)))) l).
  apply in_or_app. now left.
Qed.

(** X20: for a batch in which no document contains the word
    "constructor", every top word of the batch is a word of at least one
    document, and its count is a number, at least 1, that is the sum of
    the documents' counts of that word. *)
Theorem batch_topWords_backed (articles : list Article.t) (topCount : option Z)
    (r : Ranked.t) :
  (forall a, In a articles ->
             ~ In "constructor" (extractWords (Some (text_or_empty a)))) ->
  In r (Batch.topWords (analyzeMultipleArticles articles topCount)) ->
  existsb (fun a => has_word (Analysis.frequency (own_analysis a)) (Ranked.word r))
    articles = true
  /\ Ranked.count r
     = Num (total_count
              (map (fun a => Analysis.frequency (own_analysis a)) articles)
              (Ranked.word r))
  /\ (1 <= total_count
             (map (fun a => Analysis.frequency (own_analysis a)) articles)
             (Ranked.word r))%Z.
Proof.
  intros Hc Hin. rewrite analyzeMultipleArticles_unfold in Hin.
  cbv zeta in Hin. cbn [Batch.topWords] in Hin.
  rewrite getTopWords_slice in Hin. apply slice0_In in Hin.
  apply (Permutation_in r (Permutation_sym (sort_perm _ _))) in Hin.
  unfold ranked_entries, Object_entries in Hin. apply in_map_iff in Hin.
  destruct Hin as [[k v] [<- He]]. cbn [Ranked.word Ranked.count fst snd].
  destruct (combineFrequencies_sums _ k (document_tables_sound _ Hc))
    as [(Hpos & _ & Hwf) Hget].
  rewrite (own_get_of_entry _ k v Hwf He) in Hget.
  rewrite existsb_over_map in Hget.
  destruct (existsb _ articles) eqn:Ex; [|discriminate].
  injection Hget as ->. split; [reflexivity|]. split; [reflexivity|].
  destruct (positive_own_get _ k _ Hpos (own_get_of_entry _ k _ Hwf He))
    as [n [[= <-] Hn]].
  exact Hn.
Qed.

Lemma batch_topWords_backed_witness :
  let first := extracted 1 "Foxes" "/blog/foxes" "The fox runs. The fox jumps!" "Ann" "May" in
  let second := extracted 2 "Dogs" "/blog/dogs" "A lazy dog sleeps; the fox runs." "Bob" "June" in
  (1 <= total_count
          (map (fun a => Analysis.frequency (own_analysis a)) [first; second])
          "fox")%Z.
Proof.
  intros first second.
  apply (batch_topWords_backed [first; second] None
           {| Ranked.word := "fox"; Ranked.count := Num 3 |}).
  - intros a [<-|[<-|[]]]; vm_compute; intuition discriminate.
  - vm_compute. left. reflexivity.
Defined.

(** ** Batches with documents that failed *)

Lemma has_word_bump_same (o : object) (w : string) (c : prim) :
  String.eqb w "__proto__" = false -> has_word (bump o w c) w = true.
Proof.
  intros Hp. unfold has_word, bump, obj_set.
  destruct (own_get o w) eqn:E.
  - now rewrite own_get_update, String.eqb_refl, E.
  - rewrite Hp. now rewrite (own_get_add o w _ w E), String.eqb_refl.
Qed.

Lemma has_word_bump_kept (o : object) (w : string) (c : prim) (w' : string) :
  has_word o w' = true -> has_word (bump o w c) w' = true.
Proof.
  unfold has_word, bump, obj_set. intros H.
  destruct (own_get o w) eqn:E.
  - rewrite own_get_update, E.
    destruct (String.eqb w w'); [reflexivity|exact H].
  - destruct (String.eqb w "__proto__"); [exact H|].
    rewrite (own_get_add o w _ w' E).
    destruct (String.eqb w w'); [reflexivity|exact H].
Qed.

Lemma has_word_counted (words : list string) (w : string) :
  forall o : object,
    (has_word o w = true \/ (In w words /\ String.eqb w "__proto__" = false)) ->
    has_word (fold_left (fun f x => bump f x (Num 1)) words o) w = true.
Proof.
  induction words as [|x words IH]; intros o H; cbn [fold_left].
  - destruct H as [H|[[] _]]. exact H.
  - apply IH. destruct H as [H|[[->|Hin] Hp]].
    + left. now apply has_word_bump_kept.
    + left. now apply has_word_bump_same.
    + right. now split.
Qed.

Lemma has_word_merged (l : object) (w : string) :
  forall c : object,
    (has_word c w = true
     \/ (has_word l w = true /\ String.eqb w "__proto__" = false)) ->
    has_word
      (fold_left (fun combined '(word, count) => bump combined word count) l c) w
    = true.
Proof.
  induction l as [|[k v] l IH]; intros c H; cbn [fold_left].
  - destruct H as [H|[H _]]; [exact H|discriminate].
  - apply IH. destruct H as [H|[H Hp]].
    + left. now apply has_word_bump_kept.
    + rewrite has_word_cons in H. destruct (String.eqb k w) eqn:E.
      * apply String.eqb_eq in E. subst k. left. now apply has_word_bump_same.
      * right. now split.
Qed.

Lemma has_word_combined (tables : list object) (w : string) :
  forall c : object,
    (has_word c w = true
     \/ (String.eqb w "__proto__" = false
         /\ exists t, In t tables /\ has_word t w = true)) ->
    has_word
      (fold_left
         (fun combined freq =>
            fold_left (fun combined '(word, count) => bump combined word count)
              (Object_entries freq) combined)
         tables c) w
    = true.
Proof.
  unfold Object_entries.
  induction tables as [|t tables IH]; intros c H; cbn [fold_left].
  - destruct H as [H|[_ [t [[] _]]]]. exact H.
  - apply IH. destruct H as [H|[Hp [t' [[<-|Hin] Ht]]]].
    + left. apply has_word_merged. now left.
    + left. apply has_word_merged. right. now split.
    + right. split; [exact Hp|]. now exists t'.
Qed.

Lemma combined_has_document_word (articles : list Article.t) (a : Article.t)
    (w : string) :
  In a articles -> In w (extractWords (Some (text_or_empty a))) ->
  w <> "__proto__" ->
  has_word
    (combineFrequencies
       (map (fun a => Analysis.frequency (own_analysis a)) articles)) w
  = true.
Proof.
  intros Ha Hw Hp. apply String.eqb_neq in Hp.
  rewrite combineFrequencies_bump. apply has_word_combined. right.
  split; [exact Hp|].
  exists (Analysis.frequency (own_analysis a)). split.
  - now apply (in_map (fun a => Analysis.frequency (own_analysis a))).
  - unfold own_analysis, analyzeText. cbn [Analysis.frequency].
    rewrite countWordFrequency_bump. apply has_word_counted. right. now split.
Qed.

Lemma getTopWords_not_empty (freq : object) (w : string) (n : Z) :
  has_word freq w = true -> (0 < n)%Z -> getTopWords freq (Some n) <> [].
Proof.
  intros Hw Hn Hnil.
  assert (Hlen := getTopWords_length freq n (Z.lt_le_incl _ _ Hn)).
  rewrite Hnil in Hlen. cbn [List.length] in Hlen.
  destruct freq as [|e freq]; [discriminate|].
  cbn [Object_keys map List.length] in Hlen. lia.
Qed.

(** C3: [analyzeMultipleArticles] analyses every document and reports
    their number as [totalArticles]: each article comes back with its own
    analysis, the combined table is the merge of the tables of all the
    documents and the top words are the ranking of that table.  A
    document without text gets the zero-valued analysis and the others
    are analysed all the same: the combined table is the merge of the
    tables of the other documents, the top words are the ranking of that
    merge, both are those of the batch without the failed document, and
    there are top words as soon as another document has a word (other
    than "__proto__") and the count asked for is positive.  So with three
    documents of which one failed, the total is 3 and the top words come
    from the other two.  The empty batch gives 0 articles, an empty table
    and no top words. *)
Theorem analyzeMultipleArticles_tolerates_failures :
  (forall (articles : list Article.t) (topCount : option Z),
     Batch.totalArticles (analyzeMultipleArticles articles topCount)
     = Z.of_nat (List.length articles)
     /\ Batch.articles (analyzeMultipleArticles articles topCount)
        = map with_own_analysis articles
     /\ Batch.combinedFrequency (analyzeMultipleArticles articles topCount)
        = combineFrequencies
            (map (fun a => Analysis.frequency (own_analysis a)) articles)
     /\ Batch.topWords (analyzeMultipleArticles articles topCount)
        = getTopWords
            (combineFrequencies
               (map (fun a => Analysis.frequency (own_analysis a)) articles))
            (Some (match topCount with Some n => n | None => 5%Z end)))
  /\ (forall (before after : list Article.t) (failed : Article.t)
        (topCount : option Z),
        falsy_string (Article.text failed) = true ->
        own_analysis failed = zero_analysis
        /\ Batch.totalArticles
             (analyzeMultipleArticles (before ++ failed :: after) topCount)
           = Z.of_nat (List.length before + 1 + List.length after)
        /\ Batch.combinedFrequency
             (analyzeMultipleArticles (before ++ failed :: after) topCount)
           = Batch.combinedFrequency
               (analyzeMultipleArticles (before ++ after) topCount)
        /\ Batch.topWords
             (analyzeMultipleArticles (before ++ failed :: after) topCount)
           = Batch.topWords (analyzeMultipleArticles (before ++ after) topCount)
        /\ Batch.combinedFrequency
             (analyzeMultipleArticles (before ++ failed :: after) topCount)
           = combineFrequencies
               (map (fun a => Analysis.frequency (own_analysis a))
                  (before ++ after))
        /\ Batch.topWords
             (analyzeMultipleArticles (before ++ failed :: after) topCount)
           = getTopWords
               (combineFrequencies
                  (map (fun a => Analysis.frequency (own_analysis a))
                     (before ++ after)))
               (Some (match topCount with Some n => n | None => 5%Z end))
        /\ ((0 < match topCount with Some n => n | None => 5%Z end)%Z ->
            (exists a w,
                In a (before ++ after)
                /\ In w (extractWords (Some (text_or_empty a)))
                /\ w <> "__proto__") ->
            Batch.topWords
              (analyzeMultipleArticles (before ++ failed :: after) topCount)
            <> []))
  /\ (forall topCount : option Z,
        analyzeMultipleArticles [] topCount
        = {| Batch.articles := []; Batch.combinedFrequency := [];
             Batch.topWords := []; Batch.totalArticles := 0 |}).
Proof.
  split; [|split].
  - intros articles topCount. rewrite analyzeMultipleArticles_unfold.
    repeat split.
  - intros before after failed topCount Hf.
    assert (Hz := own_analysis_no_text failed Hf).
    rewrite !analyzeMultipleArticles_unfold. cbn [Batch.totalArticles
      Batch.combinedFrequency Batch.topWords].
    rewrite (map_app _ before (failed :: after)). cbn [map]. rewrite Hz.
    cbn [Analysis.frequency zero_analysis].
    rewrite combineFrequencies_skip_empty, <- map_app.
    repeat split.
    + rewrite length_app. cbn [List.length]. f_equal. lia.
    + intros Hpos (a & w & Ha & Hw & Hp).
      exact (getTopWords_not_empty _ w _
               (combined_has_document_word _ a w Ha Hw Hp) Hpos).
  - intros [n|]; rewrite analyzeMultipleArticles_unfold; cbn.
    + rewrite getTopWords_slice. unfold slice0. cbn. now rewrite firstn_nil.
    + reflexivity.
Qed.

Lemma analyzeMultipleArticles_tolerates_failures_witness :
  let first := extracted 1 "Foxes" "/blog/foxes" "The fox runs. The fox jumps!" "Ann" "May" in
  let second := extraction_failed 2 "/blog/gone" "Timeout 30000ms exceeded" in
  let third := extracted 3 "Dogs" "/blog/dogs" "A lazy dog sleeps; the fox runs." "Bob" "June" in
  Batch.totalArticles (analyzeMultipleArticles [first; second; third] (Some 5%Z)) = 3%Z
  /\ Batch.topWords (analyzeMultipleArticles [first; second; third] (Some 5%Z))
     = Batch.topWords (analyzeMultipleArticles [first; third] (Some 5%Z))
  /\ Batch.topWords (analyzeMultipleArticles [first; second; third] (Some 5%Z))
     = [ {| Ranked.word := "fox"; Ranked.count := Num 3 |};
         {| Ranked.word := "runs"; Ranked.count := Num 2 |};
         {| Ranked.word := "jumps"; Ranked.count := Num 1 |};
         {| Ranked.word := "lazy"; Ranked.count := Num 1 |};
         {| Ranked.word := "dog"; Ranked.count := Num 1 |} ]
  /\ Batch.topWords (analyzeMultipleArticles [first; second; third] (Some 5%Z))
     <> [].
Proof.
  intros first second third.
  destruct (proj1 (proj2 analyzeMultipleArticles_tolerates_failures)
              [first] [third] second (Some 5%Z) eq_refl)
    as (_ & Htotal & _ & Htop & _ & Hvalue & Hsome).
  split; [exact Htotal|]. split; [exact Htop|]. split.
  - refine (eq_trans Hvalue _). vm_compute. reflexivity.
  - apply Hsome; [reflexivity|].
    exists first, "fox". split; [now left|]. split; [|discriminate].
    vm_compute. now left.
Defined.
